(** * Verification of [scripts/train_unet.py]

    A shallow embedding of the U-net training script of the 2D geomodel
    latent-diffusion repository, and the properties of it that the design
    document states.

    The script is one straight-line Python module.  Its own logic is index
    arithmetic on a file list, string formatting of a checkpoint path, and
    a training loop that threads mutable state through calls into PyTorch
    and MONAI.  The embedding keeps that shape:

    - Python [float]s are binary64 numbers: Rocq's primitive floats;
    - Python list slicing is written out with its clamping of negative and
      out-of-range indices;
    - the module's global variables, the parameter tensors of the two
      networks, the optimizer, the loss scaler, the random generator, the
      files written and the console form one [state] record that is passed
      through a state-and-exception monad;
    - calls into the libraries whose results are numeric (network forward
      passes, gradients, Adam's update rule, random draws) are fields of a
      [Runtime] record: the script is verified for every runtime. *)

From Stdlib Require Import ZArith QArith Qminmax Qround List Ascii String Floats Uint63 Lia.
From stdpp Require Import base tactics option list strings gmap pretty.
Import ListNotations.

Open Scope Z_scope.

(** ** Python numbers *)

Module Py.

(** [float(n)] for a machine-sized integer [n]; every integer the script
    converts is a list length or a loop counter, far below [2^53], where
    the conversion is exact. *)
Definition float_of_int (n : Z) : float :=
  if n <? 0 then PrimFloat.opp (PrimFloat.of_uint63 (Uint63.of_Z (- n)))
  else PrimFloat.of_uint63 (Uint63.of_Z n).

(** [int(x)]: truncation toward zero; [None] stands for the
    [OverflowError]/[ValueError] Python raises on infinities and NaN. *)
Definition int_of_float (x : float) : option Z :=
  match Prim2SF x with
  | S754_zero _ => Some 0
  | S754_finite s m e =>
      let mag := if 0 <=? e then Z.shiftl (Z.pos m) e
                 else Z.shiftr (Z.pos m) (- e) in
      Some (if s then - mag else mag)
  | S754_infinity _ | S754_nan => None
  end.

(** [l[start:stop]] with the defaults of an omitted bound.  A negative
    index counts from the end, and every index is clamped to [0, len l]. *)
Definition clamp_index (len i : Z) : Z :=
  if i <? 0 then Z.max (i + len) 0 else Z.min i len.

Definition slice {A} (l : list A) (start stop : option Z) : list A :=
  let len := Z.of_nat (length l) in
  let lo := clamp_index len (default 0 start) in
  let hi := clamp_index len (default len stop) in
  take (Z.to_nat (hi - lo)) (drop (Z.to_nat lo) l).

End Py.

(** ** Dataset assembly and split (lines 36-56) *)

(** One entry of the data list: the dictionary [{"image": path}]. *)
Record datum := Datum { image : string }.

Definition imgs_dir : string := "./imgs/".

(** [geomodels_dataset], from the names [os.listdir(imgs_dir)] returned. *)
Definition geomodels_dataset (listing : list string) : list datum :=
  Py.slice (map (fun img => Datum (imgs_dir +:+ img)) listing) None (Some 4000).

Definition N_data (listing : list string) : Z :=
  Z.of_nat (length (geomodels_dataset listing)).

(** The literals [0.7] and [0.2] denote the nearest binary64 numbers. *)
Definition train_split : float := 0x1.6666666666666p-1%float.
Definition val_split : float := 0x1.999999999999ap-3%float.
Definition test_split : float := (1 - train_split - val_split)%float.
Definition batch_size : nat := 16.

(** The three index expressions of lines 54-56, for a data list of
    length [n]. *)
Definition train_stop (n : Z) : option Z :=
  Py.int_of_float (Py.float_of_int n * train_split).
Definition val_stop (n : Z) : option Z :=
  (fun k => k + 1) <$> Py.int_of_float (Py.float_of_int n * (1 - test_split)).
Definition test_start (n : Z) : option Z :=
  Py.int_of_float (Py.float_of_int (- n) * test_split).

Record split := Split {
  train_datalist : list datum;
  val_datalist : list datum;
  test_datalist : list datum
}.

(** Lines 54-56.  [None] only if a conversion [int(...)] raised. *)
Definition split_dataset (ds : list datum) : option split :=
  let n := Z.of_nat (length ds) in
  a ← train_stop n;
  let train := Py.slice ds None (Some a) in
  b ← val_stop n;
  let val := Py.slice ds (Some (Z.of_nat (length train))) (Some b) in
  c ← test_start n;
  let test := Py.slice ds (Some c) None in
  Some (Split train val test).

(** The listing of a directory holding [n] files named [0], [1], ... *)
Definition numbered_files (n : nat) : list string :=
  map (fun i : nat => pretty i) (seq 0 n).

(** ** Paths (lines 97-98, 144, 183) *)

Module Path.

Definition slash : ascii := "/"%char.

Fixpoint drop_while {A} (p : A -> bool) (l : list A) : list A :=
  match l with
  | [] => []
  | x :: l' => if p x then drop_while p l' else l
  end.

Definition is_slash (c : ascii) : bool := bool_decide (c = slash).

(** [s.rstrip('/')] *)
Definition rstrip_slash (s : list ascii) : list ascii :=
  rev (drop_while is_slash (rev s)).

(** [os.path.dirname] of [posixpath]: the part up to and including the last
    slash, with trailing slashes removed unless it is slashes only. *)
Definition dirname (p : string) : string :=
  let head := rev (drop_while (fun c => negb (is_slash c))
                              (rev (list_ascii_of_string p))) in
  string_of_list_ascii
    (if forallb is_slash head then head else rstrip_slash head).

(** [os.path.basename]: what follows the last slash. *)
Definition basename (p : string) : string :=
  let chars := list_ascii_of_string p in
  let head := drop_while (fun c => negb (is_slash c)) (rev chars) in
  string_of_list_ascii (drop (length head) chars).

(** [os.path.join(dir, name)] for a relative [name]. *)
Definition join (dir name : string) : string :=
  match rev (list_ascii_of_string dir) with
  | [] => name
  | c :: _ => if is_slash c then dir +:+ name else dir +:+ "/" +:+ name
  end.

(** The file [p] lies in the directory [dir]: its parent directory, as
    [os.path.dirname] gives it, is [dir] up to trailing slashes. *)
Definition located_in (dir p : string) : Prop :=
  dirname p = string_of_list_ascii (rstrip_slash (list_ascii_of_string dir)).

End Path.

Definition trained_vae_dir : string := "./trained_vae/".
Definition trained_vae_weights : string := trained_vae_dir +:+ "/vae_epoch_100.pt".
Definition trained_unet_dir : string := "./trained_unet/".

(** The name a checkpoint of the diffusion network is meant to carry. *)
Definition unet_checkpoint_name (epoch : Z) : string :=
  "unet_epoch_" +:+ pretty (epoch + 1) +:+ ".pt".

(** Line 183: the f-string
    [f'{trained_unet_dir} + /unet_epoch_{epoch + 1}.pt'].  The characters
    [ + /] between the two replacement fields are literal text. *)
Definition checkpoint_path (epoch : Z) : string :=
  trained_unet_dir +:+ " + /unet_epoch_" +:+ pretty (epoch + 1) +:+ ".pt".

(** ** Transform pipeline (lines 58-92) *)

(** A loaded image: its shape and its pixel values in row-major order.
    Pixel arithmetic is exact (rational); the rounding of the 32-bit
    floats MONAI computes with is not modelled. *)
Record ndarray := NdArray { shape : list nat; pixels : list Q }.

(** The value under the key ["image"] while a sample moves through the
    pipeline: first the path, then the array. *)
Inductive item :=
| ItemPath (path : string)
| ItemArray (a : ndarray).

Inductive transform :=
| LoadImaged (keys : list string)
| EnsureChannelFirstd (keys : list string)
| ScaleIntensityRanged (keys : list string) (a_min a_max : Q)
    (b_min b_max : option Q) (clip : bool).

(** [numpy.clip(x, lo, hi)] *)
Definition Qclip (lo hi : Q) (x : Q) : Q := Qmin hi (Qmax lo x).

(** [ScaleIntensityRange.__call__] of MONAI on one pixel. *)
Definition scale_intensity_range (a_min a_max : Q) (b_min b_max : option Q)
    (clip : bool) (v : Q) : Q :=
  if Qeq_bool (a_max - a_min) 0 then
    match b_min with
    | None => v - a_min
    | Some lo => v - a_min + lo
    end
  else
    let x := ((v - a_min) / (a_max - a_min))%Q in
    match b_min, b_max with
    | Some lo, Some hi =>
        let y := (x * (hi - lo) + lo)%Q in
        if clip then Qclip lo hi y else y
    | _, _ => x
    end.

Inductive exn :=
| NameError (name : string)
| TypeError (what : string)
| ValueError (what : string)
| RuntimeError (what : string)
| FileNotFoundError (path : string).

Inductive outcome (A : Type) :=
| Ok (a : A)
| Raise (e : exn).
Arguments Ok {A} a.
Arguments Raise {A} e.

(** One dictionary transform applied to the item under ["image"].  The
    images are single-channel (both networks are built with
    [in_channels=1]): the loader yields them without a channel axis and
    [EnsureChannelFirst] adds one in front. *)
Definition apply_transform (read_image : string -> option ndarray)
    (t : transform) (x : item) : outcome item :=
  match t, x with
  | LoadImaged _, ItemPath p =>
      match read_image p with
      | Some a => Ok (ItemArray a)
      | None => Raise (RuntimeError p)
      end
  | LoadImaged _, ItemArray _ => Raise (TypeError "LoadImaged")
  | EnsureChannelFirstd _, ItemArray a =>
      Ok (ItemArray (NdArray (1%nat :: shape a) (pixels a)))
  | ScaleIntensityRanged _ a_min a_max b_min b_max clip, ItemArray a =>
      Ok (ItemArray (NdArray (shape a)
            (map (scale_intensity_range a_min a_max b_min b_max clip) (pixels a))))
  | _, ItemPath p => Raise (TypeError p)
  end.

(** [transforms.Compose]: the transforms in order. *)
Fixpoint compose (read_image : string -> option ndarray)
    (ts : list transform) (x : item) : outcome item :=
  match ts with
  | [] => Ok x
  | t :: ts' =>
      match apply_transform read_image t x with
      | Ok y => compose read_image ts' y
      | Raise e => Raise e
      end
  end.

Definition train_transforms : list transform :=
  [ LoadImaged ["image"];
    EnsureChannelFirstd ["image"];
    ScaleIntensityRanged ["image"] 0 255 (Some 0%Q) (Some 1%Q) true ].

Definition val_transforms : list transform :=
  [ LoadImaged ["image"];
    EnsureChannelFirstd ["image"];
    ScaleIntensityRanged ["image"] 0 255 (Some 0%Q) (Some 1%Q) true ].

Definition test_transforms : list transform :=
  [ LoadImaged ["image"];
    EnsureChannelFirstd ["image"];
    ScaleIntensityRanged ["image"] 0 255 (Some 0%Q) (Some 1%Q) true ].

(** [Dataset(data=..., transform=...)] and
    [DataLoader(ds, batch_size=..., shuffle=...)]. *)
Record dataset := Dataset { ds_data : list datum; ds_transform : list transform }.
Record loader := DataLoader {
  ld_dataset : dataset;
  ld_batch_size : nat;
  ld_shuffle : bool
}.

Definition train_ds (sp : split) : dataset := Dataset (train_datalist sp) train_transforms.
Definition val_ds (sp : split) : dataset := Dataset (val_datalist sp) val_transforms.
(** Line 91 passes [val_transforms], not [test_transforms]. *)
Definition test_ds (sp : split) : dataset := Dataset (test_datalist sp) val_transforms.

(** [ds[i]]: the transform applied to the [i]-th entry. *)
Definition getitem (read_image : string -> option ndarray) (ds : dataset)
    (d : datum) : outcome item :=
  compose read_image (ds_transform ds) (ItemPath (image d)).

(** ** The libraries and the disk *)

(** [DDPMScheduler(num_train_timesteps=..., schedule=..., beta_start=...,
    beta_end=...)] *)
Record scheduler := DDPMScheduler {
  num_train_timesteps : Z;
  schedule : string;
  beta_start : float;
  beta_end : float
}.

(** A network object: the identities of its parameter tensors in the
    parameter store, and its train/eval mode flag. *)
Record module := Module { parameters : list positive; training : bool }.

(** Adam's per-parameter slot. *)
Record adam_slot (Tensor : Type) := AdamSlot {
  adam_steps : Z;
  exp_avg : Tensor;
  exp_avg_sq : Tensor
}.
Arguments AdamSlot {Tensor}.
Arguments adam_steps {Tensor}.
Arguments exp_avg {Tensor}.
Arguments exp_avg_sq {Tensor}.

(** The numeric operations of PyTorch, MONAI and MONAI Generative the
    script calls.  A [Tensor] is a device tensor together with its
    autograd history; [Rng] is the state of the random generator. *)
Record Runtime (Tensor Rng : Type) := {
  (* random draws *)
  randperm : nat -> Rng -> list nat * Rng;
  randn_like : Tensor -> Rng -> Tensor * Rng;
  randint : Z -> Z -> nat -> Rng -> list Z * Rng;
  (* constructors: the freshly initialised parameter tensors *)
  autoencoder_init : Rng -> list Tensor * Rng;
  unet_init : Rng -> list Tensor * Rng;
  (* AutoencoderKL.encode and .sampling; the flag is the autograd mode *)
  ae_encode : bool -> list (positive * Tensor) -> list ndarray -> Tensor * Tensor;
  ae_sampling : Tensor -> Tensor -> Rng -> Tensor * Rng;
  (* LatentDiffusionInferer.__call__: scheduler, scale factor, autograd
     mode, autoencoder parameters, U-net mode and parameters, inputs,
     noise, timesteps *)
  inferer_call : scheduler -> Tensor -> bool -> list (positive * Tensor) ->
                 bool -> list (positive * Tensor) ->
                 list ndarray -> Tensor -> list Z -> Rng -> Tensor * Rng;
  (* tensor arithmetic *)
  batch_dim : Tensor -> nat;
  tensor_std : Tensor -> Tensor;
  tensor_rdiv : Z -> Tensor -> Tensor;
  tensor_add : Tensor -> Tensor -> Tensor;
  tensor_mul_scalar : float -> Tensor -> Tensor;
  tensor_is_finite : Tensor -> bool;
  mse_loss : Tensor -> Tensor -> Tensor;
  tensor_item : Tensor -> float;
  (* autograd: the gradients [loss.backward()] adds to the leaves *)
  backward : Tensor -> gmap positive Tensor;
  (* one Adam update of a parameter from its gradient *)
  adam_update : float -> Tensor -> Tensor -> option (adam_slot Tensor) ->
                Tensor * adam_slot Tensor
}.
Arguments randperm {Tensor Rng}.
Arguments randn_like {Tensor Rng}.
Arguments randint {Tensor Rng}.
Arguments autoencoder_init {Tensor Rng}.
Arguments unet_init {Tensor Rng}.
Arguments ae_encode {Tensor Rng}.
Arguments ae_sampling {Tensor Rng}.
Arguments inferer_call {Tensor Rng}.
Arguments batch_dim {Tensor Rng}.
Arguments tensor_std {Tensor Rng}.
Arguments tensor_rdiv {Tensor Rng}.
Arguments tensor_add {Tensor Rng}.
Arguments tensor_mul_scalar {Tensor Rng}.
Arguments tensor_is_finite {Tensor Rng}.
Arguments mse_loss {Tensor Rng}.
Arguments tensor_item {Tensor Rng}.
Arguments backward {Tensor Rng}.
Arguments adam_update {Tensor Rng}.

(** What the script finds on disk, and whether a write succeeds. *)
Record Disk (Tensor : Type) := {
  listdir : string -> option (list string);
  read_image : string -> option ndarray;
  torch_load : string -> option (list Tensor);
  can_write : string -> bool
}.
Arguments listdir {Tensor}.
Arguments read_image {Tensor}.
Arguments torch_load {Tensor}.
Arguments can_write {Tensor}.

(** What the library documentation promises of the draws and shapes. *)
Record RuntimeSpec {Tensor Rng : Type} (rt : Runtime Tensor Rng) : Prop := {
  randperm_perm : forall n r, Permutation (fst (randperm rt n r)) (seq 0 n);
  randint_length : forall lo hi n r, length (fst (randint rt lo hi n r)) = n;
  randint_range : forall lo hi n r t,
    lo < hi -> In t (fst (randint rt lo hi n r)) -> lo <= t < hi;
  latent_batch_dim : forall g w imgs r,
    batch_dim rt (fst (ae_sampling rt (fst (ae_encode rt g w imgs))
                                      (snd (ae_encode rt g w imgs)) r))
    = length imgs
}.

(** ** Program state *)

Record inferer_obj (Tensor : Type) := LatentDiffusionInferer {
  inf_scheduler : scheduler;
  inf_scale_factor : Tensor
}.
Arguments LatentDiffusionInferer {Tensor}.
Arguments inf_scheduler {Tensor}.
Arguments inf_scale_factor {Tensor}.

(** [torch.optim.Adam(params, lr=...)] *)
Record optim (Tensor : Type) := Adam {
  param_group : list positive;
  lr : float;
  adam_slots : gmap positive (adam_slot Tensor)
}.
Arguments Adam {Tensor}.
Arguments param_group {Tensor}.
Arguments lr {Tensor}.
Arguments adam_slots {Tensor}.

(** [GradScaler()] with its defaults. *)
Record grad_scaler := GradScaler {
  gs_scale : float;
  gs_growth_tracker : Z;
  gs_found_inf : bool
}.

Inductive console_event :=
| BarOpen (total : Z)
| BarDescription (epoch : Z)
| BarPostfix (loss : float)
| PrintValLoss (epoch : Z) (val_loss : float)
| BarClose.

(** The objects and module-level names alive from line 154 on.  Names that
    one loop iteration binds and reads itself ([batch], [images], [z_mu],
    [z_sigma], [noise], [noise_pred], [loss]) are let-bound in the step
    functions. *)
Record state (Tensor Rng : Type) := State {
  heap : gmap positive Tensor;
  grads : gmap positive Tensor;
  autoencoderkl : module;
  unet : module;
  optimizer : optim Tensor;
  scaler : grad_scaler;
  rng : Rng;
  grad_enabled : bool;
  inferer : inferer_obj Tensor;
  train_loader : loader;
  val_loader : loader;
  test_loader : loader;
  step : option Z;
  val_step : option Z;
  epoch_loss : float;
  val_loss : float;
  epoch_losses : list float;
  val_losses : list float;
  z : Tensor;
  timesteps : option (list Z);
  saved : list (string * list (positive * Tensor));
  console : list console_event
}.
Arguments State {Tensor Rng}.
Arguments heap {Tensor Rng}.
Arguments grads {Tensor Rng}.
Arguments autoencoderkl {Tensor Rng}.
Arguments unet {Tensor Rng}.
Arguments optimizer {Tensor Rng}.
Arguments scaler {Tensor Rng}.
Arguments rng {Tensor Rng}.
Arguments grad_enabled {Tensor Rng}.
Arguments inferer {Tensor Rng}.
Arguments train_loader {Tensor Rng}.
Arguments val_loader {Tensor Rng}.
Arguments test_loader {Tensor Rng}.
Arguments step {Tensor Rng}.
Arguments val_step {Tensor Rng}.
Arguments epoch_loss {Tensor Rng}.
Arguments val_loss {Tensor Rng}.
Arguments epoch_losses {Tensor Rng}.
Arguments val_losses {Tensor Rng}.
Arguments z {Tensor Rng}.
Arguments timesteps {Tensor Rng}.
Arguments saved {Tensor Rng}.
Arguments console {Tensor Rng}.

Section Setters.
Context {Tensor Rng : Type}.

Definition set_heap (v : gmap positive Tensor) (s : state Tensor Rng) : state Tensor Rng :=
  State v (grads s) (autoencoderkl s) (unet s) (optimizer s) (scaler s) (rng
    s) (grad_enabled s) (inferer s) (train_loader s) (val_loader s)
    (test_loader s) (step s) (val_step s) (epoch_loss s) (val_loss s)
    (epoch_losses s) (val_losses s) (z s) (timesteps s) (saved s) (console
    s).

Definition set_grads (v : gmap positive Tensor) (s : state Tensor Rng) : state Tensor Rng :=
  State (heap s) v (autoencoderkl s) (unet s) (optimizer s) (scaler s) (rng
    s) (grad_enabled s) (inferer s) (train_loader s) (val_loader s)
    (test_loader s) (step s) (val_step s) (epoch_loss s) (val_loss s)
    (epoch_losses s) (val_losses s) (z s) (timesteps s) (saved s) (console
    s).

Definition set_autoencoderkl (v : module) (s : state Tensor Rng) : state Tensor Rng :=
  State (heap s) (grads s) v (unet s) (optimizer s) (scaler s) (rng s)
    (grad_enabled s) (inferer s) (train_loader s) (val_loader s)
    (test_loader s) (step s) (val_step s) (epoch_loss s) (val_loss s)
    (epoch_losses s) (val_losses s) (z s) (timesteps s) (saved s) (console
    s).

Definition set_unet (v : module) (s : state Tensor Rng) : state Tensor Rng :=
  State (heap s) (grads s) (autoencoderkl s) v (optimizer s) (scaler s) (rng
    s) (grad_enabled s) (inferer s) (train_loader s) (val_loader s)
    (test_loader s) (step s) (val_step s) (epoch_loss s) (val_loss s)
    (epoch_losses s) (val_losses s) (z s) (timesteps s) (saved s) (console
    s).

Definition set_optimizer (v : optim Tensor) (s : state Tensor Rng) : state Tensor Rng :=
  State (heap s) (grads s) (autoencoderkl s) (unet s) v (scaler s) (rng s)
    (grad_enabled s) (inferer s) (train_loader s) (val_loader s)
    (test_loader s) (step s) (val_step s) (epoch_loss s) (val_loss s)
    (epoch_losses s) (val_losses s) (z s) (timesteps s) (saved s) (console
    s).

Definition set_scaler (v : grad_scaler) (s : state Tensor Rng) : state Tensor Rng :=
  State (heap s) (grads s) (autoencoderkl s) (unet s) (optimizer s) v (rng
    s) (grad_enabled s) (inferer s) (train_loader s) (val_loader s)
    (test_loader s) (step s) (val_step s) (epoch_loss s) (val_loss s)
    (epoch_losses s) (val_losses s) (z s) (timesteps s) (saved s) (console
    s).

Definition set_rng (v : Rng) (s : state Tensor Rng) : state Tensor Rng :=
  State (heap s) (grads s) (autoencoderkl s) (unet s) (optimizer s) (scaler
    s) v (grad_enabled s) (inferer s) (train_loader s) (val_loader s)
    (test_loader s) (step s) (val_step s) (epoch_loss s) (val_loss s)
    (epoch_losses s) (val_losses s) (z s) (timesteps s) (saved s) (console
    s).

Definition set_grad_enabled (v : bool) (s : state Tensor Rng) : state Tensor Rng :=
  State (heap s) (grads s) (autoencoderkl s) (unet s) (optimizer s) (scaler
    s) (rng s) v (inferer s) (train_loader s) (val_loader s) (test_loader s)
    (step s) (val_step s) (epoch_loss s) (val_loss s) (epoch_losses s)
    (val_losses s) (z s) (timesteps s) (saved s) (console s).

Definition set_step (v : option Z) (s : state Tensor Rng) : state Tensor Rng :=
  State (heap s) (grads s) (autoencoderkl s) (unet s) (optimizer s) (scaler
    s) (rng s) (grad_enabled s) (inferer s) (train_loader s) (val_loader s)
    (test_loader s) v (val_step s) (epoch_loss s) (val_loss s) (epoch_losses
    s) (val_losses s) (z s) (timesteps s) (saved s) (console s).

Definition set_val_step (v : option Z) (s : state Tensor Rng) : state Tensor Rng :=
  State (heap s) (grads s) (autoencoderkl s) (unet s) (optimizer s) (scaler
    s) (rng s) (grad_enabled s) (inferer s) (train_loader s) (val_loader s)
    (test_loader s) (step s) v (epoch_loss s) (val_loss s) (epoch_losses s)
    (val_losses s) (z s) (timesteps s) (saved s) (console s).

Definition set_epoch_loss (v : float) (s : state Tensor Rng) : state Tensor Rng :=
  State (heap s) (grads s) (autoencoderkl s) (unet s) (optimizer s) (scaler
    s) (rng s) (grad_enabled s) (inferer s) (train_loader s) (val_loader s)
    (test_loader s) (step s) (val_step s) v (val_loss s) (epoch_losses s)
    (val_losses s) (z s) (timesteps s) (saved s) (console s).

Definition set_val_loss (v : float) (s : state Tensor Rng) : state Tensor Rng :=
  State (heap s) (grads s) (autoencoderkl s) (unet s) (optimizer s) (scaler
    s) (rng s) (grad_enabled s) (inferer s) (train_loader s) (val_loader s)
    (test_loader s) (step s) (val_step s) (epoch_loss s) v (epoch_losses s)
    (val_losses s) (z s) (timesteps s) (saved s) (console s).

Definition set_epoch_losses (v : list float) (s : state Tensor Rng) : state Tensor Rng :=
  State (heap s) (grads s) (autoencoderkl s) (unet s) (optimizer s) (scaler
    s) (rng s) (grad_enabled s) (inferer s) (train_loader s) (val_loader s)
    (test_loader s) (step s) (val_step s) (epoch_loss s) (val_loss s) v
    (val_losses s) (z s) (timesteps s) (saved s) (console s).

Definition set_val_losses (v : list float) (s : state Tensor Rng) : state Tensor Rng :=
  State (heap s) (grads s) (autoencoderkl s) (unet s) (optimizer s) (scaler
    s) (rng s) (grad_enabled s) (inferer s) (train_loader s) (val_loader s)
    (test_loader s) (step s) (val_step s) (epoch_loss s) (val_loss s)
    (epoch_losses s) v (z s) (timesteps s) (saved s) (console s).

Definition set_z (v : Tensor) (s : state Tensor Rng) : state Tensor Rng :=
  State (heap s) (grads s) (autoencoderkl s) (unet s) (optimizer s) (scaler
    s) (rng s) (grad_enabled s) (inferer s) (train_loader s) (val_loader s)
    (test_loader s) (step s) (val_step s) (epoch_loss s) (val_loss s)
    (epoch_losses s) (val_losses s) v (timesteps s) (saved s) (console s).

Definition set_timesteps (v : option (list Z)) (s : state Tensor Rng) : state Tensor Rng :=
  State (heap s) (grads s) (autoencoderkl s) (unet s) (optimizer s) (scaler
    s) (rng s) (grad_enabled s) (inferer s) (train_loader s) (val_loader s)
    (test_loader s) (step s) (val_step s) (epoch_loss s) (val_loss s)
    (epoch_losses s) (val_losses s) (z s) v (saved s) (console s).

Definition set_saved (v : list (string * list (positive * Tensor))) (s : state Tensor Rng) : state Tensor Rng :=
  State (heap s) (grads s) (autoencoderkl s) (unet s) (optimizer s) (scaler
    s) (rng s) (grad_enabled s) (inferer s) (train_loader s) (val_loader s)
    (test_loader s) (step s) (val_step s) (epoch_loss s) (val_loss s)
    (epoch_losses s) (val_losses s) (z s) (timesteps s) v (console s).

Definition set_console (v : list console_event) (s : state Tensor Rng) : state Tensor Rng :=
  State (heap s) (grads s) (autoencoderkl s) (unet s) (optimizer s) (scaler
    s) (rng s) (grad_enabled s) (inferer s) (train_loader s) (val_loader s)
    (test_loader s) (step s) (val_step s) (epoch_loss s) (val_loss s)
    (epoch_losses s) (val_losses s) (z s) (timesteps s) (saved s) v.

End Setters.

(** ** The state-and-exception monad *)

Definition M (Tensor Rng A : Type) : Type :=
  state Tensor Rng -> outcome A * state Tensor Rng.

Section Monad.
Context {Tensor Rng : Type}.

Definition ret {A} (a : A) : M Tensor Rng A := fun s => (Ok a, s).

Definition bind {A B} (m : M Tensor Rng A) (k : A -> M Tensor Rng B) : M Tensor Rng B :=
  fun s =>
    match m s with
    | (Ok a, s') => k a s'
    | (Raise e, s') => (Raise e, s')
    end.

Definition raise {A} (e : exn) : M Tensor Rng A := fun s => (Raise e, s).
Definition get : M Tensor Rng (state Tensor Rng) := fun s => (Ok s, s).
Definition modify (f : state Tensor Rng -> state Tensor Rng) : M Tensor Rng unit :=
  fun s => (Ok tt, f s).
Definition lift {A} (o : outcome A) : M Tensor Rng A := fun s => (o, s).

(** A draw from the random generator. *)
Definition draw {A} (f : Rng -> A * Rng) : M Tensor Rng A :=
  fun s => let '(a, r) := f (rng s) in (Ok a, set_rng r s).

(** [print] and the progress bar. *)
Definition emit (e : console_event) : M Tensor Rng unit :=
  modify (fun s => set_console (console s ++ [e]) s).

(** [with torch.no_grad(): body]; the previous mode is restored on exit,
    also when [body] raises. *)
Definition no_grad {A} (body : M Tensor Rng A) : M Tensor Rng A :=
  fun s =>
    let prev := grad_enabled s in
    let '(o, s') := body (set_grad_enabled false s) in
    (o, set_grad_enabled prev s').

End Monad.

Declare Scope py_scope.
Delimit Scope py_scope with py.
Notation "x <- m ;; k" := (bind m (fun x => k))
  (at level 100, m at next level, right associativity) : py_scope.
Notation "m ;; k" := (bind m (fun _ => k))
  (at level 100, right associativity) : py_scope.

(** ** Data loading *)

(** The batches of a sampler order: consecutive runs of [n] indices, the
    last one possibly shorter ([drop_last=False]). *)
Fixpoint chunks_aux {A} (fuel n : nat) (l : list A) : list (list A) :=
  match fuel with
  | O => []
  | S fuel' =>
      match l with
      | [] => []
      | _ :: _ => take n l :: chunks_aux fuel' n (drop n l)
      end
  end.

Definition chunks {A} (n : nat) (l : list A) : list (list A) :=
  chunks_aux (length l) n l.

(** [len(loader)] *)
Definition loader_len (ld : loader) : Z :=
  let n := Z.of_nat (length (ds_data (ld_dataset ld))) in
  let b := Z.of_nat (ld_batch_size ld) in
  (n + b - 1) / b.

(** The arrays of the samples with the given indices, stacked: what
    [batch["image"]] holds. *)
Fixpoint fetch (read : string -> option ndarray) (ds : dataset)
    (idxs : list nat) : outcome (list ndarray) :=
  match idxs with
  | [] => Ok []
  | i :: idxs' =>
      match ds_data ds !! i with
      | None => Raise (RuntimeError "index out of range")
      | Some d =>
          match getitem read ds d with
          | Raise e => Raise e
          | Ok (ItemPath p) => Raise (TypeError p)
          | Ok (ItemArray a) =>
              match fetch read ds idxs' with
              | Raise e => Raise e
              | Ok rest => Ok (a :: rest)
              end
          end
      end
  end.

(** ** Networks, optimizer and loss scaler *)

Definition n_epochs : nat := 200.
Definition val_interval : Z := 5.

(** [lr=1e-4]; [beta_start=0.0001], [beta_end=0.02] *)
Definition learning_rate : float := 0x1.a36e2eb1c432dp-14%float.
Definition the_scheduler : scheduler :=
  DDPMScheduler 1000 "linear_beta" 0x1.a36e2eb1c432dp-14%float
                0x1.47ae147ae147bp-6%float.

Section Torch.
Context {Tensor Rng : Type} (rt : Runtime Tensor Rng).
Implicit Types (s : state Tensor Rng) (h g : gmap positive Tensor).

(** [m.state_dict()] / [m.parameters()] with their current values. *)
Definition state_dict h (m : module) : list (positive * Tensor) :=
  omap (fun p => (fun t => (p, t)) <$> h !! p) (parameters m).

(** Fresh parameter tensors get consecutive identities from [next] on. *)
Fixpoint alloc (next : positive) (ts : list Tensor) : list (positive * Tensor) :=
  match ts with
  | [] => []
  | t :: ts' => (next, t) :: alloc (Pos.succ next) ts'
  end.

Definition store (ps : list (positive * Tensor)) h : gmap positive Tensor :=
  foldr (fun '(p, t) acc => <[p := t]> acc) h ps.

(** [m.train()] and [m.eval()] *)
Definition set_mode (b : bool) (m : module) : module := Module (parameters m) b.

(** [optimizer.zero_grad(set_to_none=True)] *)
Definition zero_grad s : state Tensor Rng :=
  set_grads (foldr delete (grads s) (param_group (optimizer s))) s.

(** [scaler.scale(loss).backward()]: the gradients of the scaled loss are
    accumulated into [.grad]. *)
Definition scaled_backward (loss : Tensor) s : state Tensor Rng :=
  let scaled := tensor_mul_scalar rt (gs_scale (scaler s)) loss in
  set_grads (union_with (fun old new => Some (tensor_add rt old new))
                        (grads s) (backward rt scaled)) s.

(** [optimizer.step()]: every parameter of the optimizer's group that has
    a gradient is updated, with its Adam slot. *)
Definition adam_step_one (lr : float) g (p : positive)
    (acc : gmap positive Tensor * gmap positive (adam_slot Tensor))
    : gmap positive Tensor * gmap positive (adam_slot Tensor) :=
  match g !! p, acc.1 !! p with
  | Some gr, Some w =>
      let '(w', slot') := adam_update rt lr w gr (acc.2 !! p) in
      (<[p := w']> acc.1, <[p := slot']> acc.2)
  | _, _ => acc
  end.

Definition optimizer_step s : state Tensor Rng :=
  let opt := optimizer s in
  let '(h', slots') :=
    foldr (adam_step_one (lr opt) (grads s)) (heap s, adam_slots opt)
          (param_group opt) in
  set_optimizer (Adam (param_group opt) (lr opt) slots') (set_heap h' s).

(** [scaler.step(optimizer)]: the gradients of the optimizer's parameters
    are checked for infinities and NaN and divided by the scale; the
    optimizer steps unless one was found.  (PyTorch's assertion that at
    least one parameter of the group has a gradient is not modelled.) *)
Definition unscale_one (inv_scale : float) (p : positive) g
    : gmap positive Tensor :=
  match g !! p with
  | Some gr => <[p := tensor_mul_scalar rt inv_scale gr]> g
  | None => g
  end.

Definition grads_finite g (ps : list positive) : bool :=
  forallb (fun p => match g !! p with
                    | Some gr => tensor_is_finite rt gr
                    | None => true
                    end) ps.

Definition scaler_step s : state Tensor Rng :=
  let sc := scaler s in
  let ps := param_group (optimizer s) in
  let found_inf := negb (grads_finite (grads s) ps) in
  let g' := foldr (unscale_one (1 / gs_scale sc)%float) (grads s) ps in
  let s1 := set_scaler (GradScaler (gs_scale sc) (gs_growth_tracker sc) found_inf)
                       (set_grads g' s) in
  if found_inf then s1 else optimizer_step s1.

(** [scaler.update()] with [growth_factor=2], [backoff_factor=0.5] and
    [growth_interval=2000]. *)
Definition scaler_update s : state Tensor Rng :=
  let sc := scaler s in
  let sc' :=
    if gs_found_inf sc then GradScaler (gs_scale sc * 0.5)%float 0 false
    else if gs_growth_tracker sc + 1 =? 2000
         then GradScaler (gs_scale sc * 2)%float 0 false
         else GradScaler (gs_scale sc) (gs_growth_tracker sc + 1) false in
  set_scaler sc' s.

(** [autoencoderkl.encode(images)] then [autoencoderkl.sampling(...)] *)
Definition encode_and_sample (images : list ndarray) : M Tensor Rng Tensor :=
  (s <- get ;;
   let mu_sigma := ae_encode rt (grad_enabled s)
                     (state_dict (heap s) (autoencoderkl s)) images in
   draw (ae_sampling rt (fst mu_sigma) (snd mu_sigma)))%py.

(** [inferer(inputs=images, diffusion_model=unet, noise=noise,
    timesteps=timesteps, autoencoder_model=autoencoderkl)] *)
Definition call_inferer (images : list ndarray) (noise : Tensor)
    (ts : list Z) : M Tensor Rng Tensor :=
  (s <- get ;;
   draw (inferer_call rt (inf_scheduler (inferer s))
           (inf_scale_factor (inferer s)) (grad_enabled s)
           (state_dict (heap s) (autoencoderkl s))
           (training (unet s)) (state_dict (heap s) (unet s))
           images noise ts))%py.

(** Lines 165-172 and 193-208: from the images to the loss tensor. *)
Definition forward_loss (images : list ndarray) : M Tensor Rng Tensor :=
  (z' <- encode_and_sample images ;;
   modify (set_z z') ;;
   noise <- draw (randn_like rt z') ;;
   s <- get ;;
   ts <- draw (randint rt 0 (num_train_timesteps (inf_scheduler (inferer s)))
                       (batch_dim rt z')) ;;
   modify (set_timesteps (Some ts)) ;;
   noise_pred <- call_inferer images noise ts ;;
   ret (mse_loss rt noise_pred noise))%py.

End Torch.

(** ** The training loop (lines 155-214) *)

Section Loop.
Context {Tensor Rng : Type} (rt : Runtime Tensor Rng) (disk : Disk Tensor).
Implicit Types (s : state Tensor Rng).

Open Scope py_scope.

(** Reading the loop variables after their loops: unbound names raise. *)
Definition read_step : M Tensor Rng Z :=
  s <- get ;;
  match step s with
  | Some k => ret k
  | None => raise (NameError "step")
  end.

Definition read_val_step : M Tensor Rng Z :=
  s <- get ;;
  match val_step s with
  | Some k => ret k
  | None => raise (NameError "val_step")
  end.

(** The index batches one pass over a loader yields. *)
Definition sampler_order (ld : loader) : M Tensor Rng (list nat) :=
  let n := length (ds_data (ld_dataset ld)) in
  if ld_shuffle ld then draw (randperm rt n) else ret (seq 0 n).

(** [for k, batch in enumerate(loader, start)]: each batch is loaded just
    before its iteration. *)
Fixpoint for_batches (ld : loader) (k : Z) (batches : list (list nat))
    (body : Z -> list ndarray -> M Tensor Rng unit) : M Tensor Rng unit :=
  match batches with
  | [] => ret tt
  | b :: batches' =>
      images <- lift (fetch (read_image disk) (ld_dataset ld) b) ;;
      body k images ;;
      for_batches ld (k + 1) batches' body
  end.

Definition for_enumerate (ld : loader) (start : Z)
    (body : Z -> list ndarray -> M Tensor Rng unit) : M Tensor Rng unit :=
  order <- sampler_order ld ;;
  for_batches ld start (chunks (ld_batch_size ld) order) body.

(** Lines 161-180: one training step. *)
Definition train_batch (k : Z) (images : list ndarray) : M Tensor Rng unit :=
  modify (set_step (Some k)) ;;
  modify zero_grad ;;
  loss <- forward_loss rt images ;;
  modify (scaled_backward rt loss) ;;
  modify (scaler_step rt) ;;
  modify scaler_update ;;
  modify (fun s => set_epoch_loss (epoch_loss s + tensor_item rt loss)%float s) ;;
  k' <- read_step ;;
  s <- get ;;
  emit (BarPostfix (epoch_loss s / Py.float_of_int (k' + 1))%float).

(** Lines 189-210: one validation step. *)
Definition val_batch (k : Z) (images : list ndarray) : M Tensor Rng unit :=
  modify (set_val_step (Some k)) ;;
  loss <- forward_loss rt images ;;
  modify (fun s => set_val_loss (val_loss s + tensor_item rt loss)%float s).

(** Line 183: [torch.save(unet.state_dict(), path)] *)
Definition torch_save_unet (path : string) : M Tensor Rng unit :=
  s <- get ;;
  if can_write disk path
  then modify (set_saved (saved s ++ [(path, state_dict (heap s) (unet s))]))
  else raise (RuntimeError path).

(** Lines 186-213: the validation pass of epoch [epoch]. *)
Definition validation (epoch : Z) : M Tensor Rng unit :=
  modify (fun s => set_unet (set_mode false (unet s)) s) ;;
  modify (set_val_loss 0%float) ;;
  no_grad (ld <- (s <- get ;; ret (val_loader s)) ;;
           for_enumerate ld 1 val_batch) ;;
  k <- read_val_step ;;
  modify (fun s => set_val_loss (val_loss s / Py.float_of_int k)%float s) ;;
  modify (fun s => set_val_losses (val_losses s ++ [val_loss s]) s) ;;
  s <- get ;;
  emit (PrintValLoss epoch (val_loss s)).

(** Lines 156-181: the training pass of epoch [epoch]. *)
Definition train_pass (epoch : Z) : M Tensor Rng unit :=
  modify (fun s => set_unet (set_mode true (unet s)) s) ;;
  modify (fun s => set_autoencoderkl (set_mode false (autoencoderkl s)) s) ;;
  modify (set_epoch_loss 0%float) ;;
  ld <- (s <- get ;; ret (train_loader s)) ;;
  emit (BarOpen (loader_len ld)) ;;
  emit (BarDescription epoch) ;;
  for_enumerate ld 0 train_batch ;;
  k <- read_step ;;
  modify (fun s => set_epoch_losses
            (epoch_losses s ++ [(epoch_loss s / Py.float_of_int (k + 1))%float]) s).

(** Lines 182-183. *)
Definition maybe_checkpoint (epoch : Z) : M Tensor Rng unit :=
  if (epoch + 1) mod 10 =? 0 then torch_save_unet (checkpoint_path epoch)
  else ret tt.

(** Lines 185-213. *)
Definition maybe_validate (epoch : Z) : M Tensor Rng unit :=
  if (epoch + 1) mod val_interval =? 0 then validation epoch else ret tt.

(** Lines 156-213: the body of the epoch loop. *)
Definition epoch_body (epoch : Z) : M Tensor Rng unit :=
  train_pass epoch ;;
  maybe_checkpoint epoch ;;
  maybe_validate epoch.

(** [for epoch in ...] *)
Fixpoint for_epochs (epochs : list Z) : M Tensor Rng unit :=
  match epochs with
  | [] => ret tt
  | e :: epochs' => epoch_body e ;; for_epochs epochs'
  end.

(** [range(n)] *)
Definition range (n : nat) : list Z := map Z.of_nat (seq 0 n).

Definition training_loop : M Tensor Rng unit :=
  for_epochs (range n_epochs) ;;
  emit BarClose.

Close Scope py_scope.

(** ** Set-up (lines 36-153) *)

Definition or_raise {A} (e : exn) (o : option A) : outcome A :=
  match o with
  | Some a => Ok a
  | None => Raise e
  end.

(** Lines 58-153 for a given split and generator state: the loaders, the
    two networks, the autoencoder checkpoint, the scheduler, the scale
    factor from the first training batch, the inferer, the optimizer and
    the loss scaler. *)
Definition setup_from_split (sp : split) (r0 : Rng) : outcome (state Tensor Rng) :=
  let train_ld := DataLoader (train_ds sp) batch_size true in
  let val_ld := DataLoader (val_ds sp) batch_size true in
  let test_ld := DataLoader (test_ds sp) batch_size true in
  (* autoencoderkl = AutoencoderKL(...) *)
  let '(ae_init, r1) := autoencoder_init rt r0 in
  let ae_params := alloc 1%positive ae_init in
  let h1 := store ae_params ∅ in
  (* checkpoint = torch.load(...); autoencoderkl.load_state_dict(checkpoint) *)
  match torch_load disk trained_vae_weights with
  | None => Raise (FileNotFoundError trained_vae_weights)
  | Some checkpoint =>
      if negb (length checkpoint =? length ae_params)%nat
      then Raise (RuntimeError "load_state_dict")
      else
        let h2 := store (zip ae_params.*1 checkpoint) h1 in
        let ae := Module ae_params.*1 false in
        (* unet = DiffusionModelUNet(...) *)
        let '(unet_init, r2) := unet_init rt r1 in
        let unet_params :=
          alloc (Pos.of_succ_nat (length ae_params)) unet_init in
        let h3 := store unet_params h2 in
        let un := Module unet_params.*1 true in
        (* check_data = first(train_loader) *)
        let '(order, r3) := randperm rt (length (train_datalist sp)) r2 in
        match chunks batch_size order with
        | [] => Raise (TypeError "'NoneType' object is not subscriptable")
        | b :: _ =>
            match fetch (read_image disk) (train_ds sp) b with
            | Raise e => Raise e
            | Ok images =>
                (* z = autoencoderkl.encode_stage_2_inputs(...) under no_grad *)
                let mu_sigma := ae_encode rt false (state_dict h3 ae) images in
                let '(z0, r4) := ae_sampling rt (fst mu_sigma) (snd mu_sigma) r3 in
                let scale_factor := tensor_rdiv rt 1 (tensor_std rt z0) in
                Ok (State h3 ∅ ae un
                      (Adam (parameters un) learning_rate ∅)
                      (GradScaler 65536%float 0 false)
                      r4 true
                      (LatentDiffusionInferer the_scheduler scale_factor)
                      train_ld val_ld test_ld
                      None None 0%float 0%float [] []
                      z0 None [] [])
            end
        end
  end.

(** Lines 36-56, then the rest. *)
Definition setup (r0 : Rng) : outcome (state Tensor Rng) :=
  match listdir disk imgs_dir with
  | None => Raise (FileNotFoundError imgs_dir)
  | Some listing =>
      match split_dataset (geomodels_dataset listing) with
      | None => Raise (ValueError "int")
      | Some sp => setup_from_split sp r0
      end
  end.

(** The whole script: the outcome and, once the loop was entered, the
    state it ended in. *)
Definition script_from_split (sp : split) (r0 : Rng)
    : outcome unit * option (state Tensor Rng) :=
  match setup_from_split sp r0 with
  | Raise e => (Raise e, None)
  | Ok s0 => let '(o, s) := training_loop s0 in (o, Some s)
  end.

Definition script (r0 : Rng) : outcome unit * option (state Tensor Rng) :=
  match setup r0 with
  | Raise e => (Raise e, None)
  | Ok s0 => let '(o, s) := training_loop s0 in (o, Some s)
  end.

End Loop.

(** ** A small executable runtime *)

(** Tensors are integer vectors with one entry per sample, the generator
    is a counter.  It serves to run the script on concrete inputs. *)
Module Toy.

Definition tensor : Type := list Z.
Definition gen : Type := Z.

Definition total (t : tensor) : Z := foldr Z.add 0 t.

Definition pixel_sum (a : ndarray) : Z :=
  foldr (fun q acc => Qfloor q + acc) 0 (pixels a).

Definition weight_sum (w : list (positive * tensor)) : Z :=
  foldr (fun pt acc => total pt.2 + acc) 0 w.

Definition rt : Runtime tensor gen := {|
  randperm := fun n r => (rev (seq 0 n), r + 1);
  randn_like := fun t r => (map (fun _ => r mod 7 - 3) t, r + 1);
  randint := fun lo hi n r =>
    (map (fun i : nat => lo + (r + Z.of_nat i) mod (hi - lo)) (seq 0 n), r + 1);
  autoencoder_init := fun r => ([[1]; [2]], r + 1);
  unet_init := fun r => ([[3]; [4]; [5]], r + 1);
  ae_encode := fun _ w imgs =>
    (map (fun a => pixel_sum a + weight_sum w) imgs, map (fun _ => 1) imgs);
  ae_sampling := fun mu sigma r =>
    (zip_with (fun m sg => m + sg * (r mod 3)) mu sigma, r + 1);
  inferer_call := fun sch sf _ ae _ un imgs noise ts r =>
    (zip_with (fun n t => n + t mod 2 + weight_sum un mod 5 + total sf) noise ts,
     r + 1);
  batch_dim := fun t => length t;
  tensor_std := fun t => [1 + foldr Z.max 0 t - foldr Z.min 0 t];
  tensor_rdiv := fun k t => map (fun x => k + x) t;
  tensor_add := fun a b => zip_with Z.add a b;
  tensor_mul_scalar := fun _ t => t;
  tensor_is_finite := fun t => forallb (fun x => Z.abs x <? 1000000) t;
  mse_loss := fun a b => [total (zip_with (fun x y => (x - y) * (x - y)) a b)];
  tensor_item := fun t => (Py.float_of_int (total t) / 8)%float;
  backward := fun loss => {[ 1%positive := loss; 4%positive := loss ]};
  adam_update := fun _ w g slot =>
    (zip_with Z.sub w g,
     AdamSlot (1 + from_option adam_steps 0 slot) g g)
|}.

Definition picture (p : string) : ndarray :=
  NdArray [2; 2]%nat [10%Q; 300%Q; (-5)%Q; inject_Z (Z.of_nat (String.length p))].

(** A disk with [n] image files and the autoencoder checkpoint, where
    every write succeeds. *)
Definition disk (n : nat) : Disk tensor := {|
  listdir := fun d => if String.eqb d imgs_dir then Some (numbered_files n) else None;
  read_image := fun p => Some (picture p);
  torch_load := fun p =>
    if String.eqb p trained_vae_weights then Some [[7]; [8]] else None;
  can_write := fun _ => true
|}.

(** The same disk when no write succeeds (as when the directory a
    checkpoint path names does not exist). *)
Definition locked_disk (n : nat) : Disk tensor := {|
  listdir := listdir (disk n);
  read_image := read_image (disk n);
  torch_load := torch_load (disk n);
  can_write := fun _ => false
|}.

(** The split of a listing of 40 files: 28, 9 and 4 entries. *)
Definition split40 : split :=
  default (Split [] [] []) (split_dataset (geomodels_dataset (numbered_files 40))).

Definition no_loader : loader := DataLoader (Dataset [] []) batch_size true.

(** A state with nothing in it, for the places where a state is needed
    before set-up has run. *)
Definition blank : state tensor gen :=
  State ∅ ∅ (Module [] false) (Module [] true)
    (Adam [] learning_rate ∅) (GradScaler 65536%float 0 false) 0 true
    (LatentDiffusionInferer the_scheduler []) no_loader no_loader no_loader
    None None 0%float 0%float [] [] [] None [] [].

(** The state set-up leaves on the disk with 40 files. *)
Definition start : state tensor gen :=
  match setup_from_split rt (disk 40) split40 0 with
  | Ok s => s
  | Raise _ => blank
  end.

(** The same state with the training loader, respectively the validation
    loader, replaced by a loader over no data. *)
Definition without_training_data : state tensor gen :=
  State (heap start) (grads start) (autoencoderkl start) (unet start)
    (optimizer start) (scaler start) (rng start) (grad_enabled start)
    (inferer start) no_loader (val_loader start) (test_loader start)
    None None 0%float 0%float [] [] (z start) None [] [].

Definition without_validation_data : state tensor gen :=
  State (heap start) (grads start) (autoencoderkl start) (unet start)
    (optimizer start) (scaler start) (rng start) (grad_enabled start)
    (inferer start) (train_loader start) no_loader (test_loader start)
    None None 0%float 0%float [] [] (z start) None [] [].

End Toy.

(** ** Observations and preconditions used in the statements *)

Section Observations.
Context {Tensor Rng : Type}.

Definition set_test_loader (ld : loader) (s : state Tensor Rng) : state Tensor Rng :=
  State (heap s) (grads s) (autoencoderkl s) (unet s) (optimizer s) (scaler s)
    (rng s) (grad_enabled s) (inferer s) (train_loader s) (val_loader s) ld
    (step s) (val_step s) (epoch_loss s) (val_loss s) (epoch_losses s)
    (val_losses s) (z s) (timesteps s) (saved s) (console s).

(** The paths [torch.save] wrote to, in order. *)
Definition saved_paths (s : state Tensor Rng) : list string := (saved s).*1.

(** The epochs whose validation line was printed, in order. *)
Definition validated_epochs (s : state Tensor Rng) : list Z :=
  omap (fun ev => match ev with
                  | PrintValLoss e _ => Some e
                  | _ => None
                  end) (console s).

(** What a run shows to the outside: how it ended, the two loss
    histories, the checkpoints written and the console. *)
Definition observable (x : outcome unit * option (state Tensor Rng)) :=
  (x.1, (fun s => (epoch_losses s, val_losses s, saved s, console s)) <$> x.2).

(** A loader over a dataset that is not empty and whose every sample
    loads to an array. *)
Definition loader_ok (read : string -> option ndarray) (ld : loader) : Prop :=
  ds_data (ld_dataset ld) <> [] /\
  (0 < ld_batch_size ld)%nat /\
  forall d, In d (ds_data (ld_dataset ld)) ->
    exists a, getitem read (ld_dataset ld) d = Ok (ItemArray a).

End Observations.

Section ValidationLosses.
Context {Tensor Rng : Type} (rt : Runtime Tensor Rng) (disk : Disk Tensor).

(** The loss values [loss.item()] of the successive validation steps over
    the given index batches, started in state [s] with step counter [k]. *)
Fixpoint batch_losses (ld : loader) (k : Z) (batches : list (list nat))
    (s : state Tensor Rng) : list float :=
  match batches with
  | [] => []
  | b :: batches' =>
      match fetch (read_image disk) (ld_dataset ld) b with
      | Raise _ => []
      | Ok images =>
          match forward_loss rt images (set_val_step (Some k) s) with
          | (Ok loss, _) =>
              tensor_item rt loss ::
              batch_losses ld (k + 1) batches' (val_batch rt k images s).2
          | (Raise _, _) => []
          end
      end
  end.

(** The sum the loop accumulates: [0 + l1 + l2 + ...], left to right. *)
Definition float_sum (l : list float) : float :=
  fold_left PrimFloat.add l 0%float.

(** The per-batch loss values of the validation pass started in [s]: the
    U-net in evaluation mode, autograd off, one pass over the validation
    loader with the step counter starting at 1. *)
Definition validation_losses (s : state Tensor Rng) : list float :=
  let ld := val_loader s in
  let s1 := set_grad_enabled false
              (set_val_loss 0%float (set_unet (set_mode false (unet s)) s)) in
  match sampler_order rt ld s1 with
  | (Ok order, s2) => batch_losses ld 1 (chunks (ld_batch_size ld) order) s2
  | (Raise _, _) => []
  end.

(** The loss values [loss.item()] of the successive training steps over
    the given index batches, started in state [s] with step counter [k]. *)
Fixpoint train_batch_losses (ld : loader) (k : Z) (batches : list (list nat))
    (s : state Tensor Rng) : list float :=
  match batches with
  | [] => []
  | b :: batches' =>
      match fetch (read_image disk) (ld_dataset ld) b with
      | Raise _ => []
      | Ok images =>
          match forward_loss rt images (zero_grad (set_step (Some k) s)) with
          | (Ok loss, _) =>
              tensor_item rt loss ::
              train_batch_losses ld (k + 1) batches' (train_batch rt k images s).2
          | (Raise _, _) => []
          end
      end
  end.

(** The running means of a list of losses, as line 180 computes them:
    the sum so far, started at [acc], over the number of batches so far,
    started at [k]. *)
Fixpoint running_means (acc : float) (k : Z) (losses : list float) : list float :=
  match losses with
  | [] => []
  | x :: rest =>
      ((acc + x) / Py.float_of_int (k + 1))%float ::
      running_means (acc + x)%float (k + 1) rest
  end.

(** The state in which the batch loop of epoch [epoch] starts (lines
    156-160): both modes set, [epoch_loss] reset, the progress bar opened
    and described. *)
Definition train_pass_start (epoch : Z) (s : state Tensor Rng) : state Tensor Rng :=
  let s1 := set_unet (set_mode true (unet s)) s in
  let s2 := set_autoencoderkl (set_mode false (autoencoderkl s1)) s1 in
  let s3 := set_epoch_loss 0%float s2 in
  let s4 := set_console (console s3 ++ [BarOpen (loader_len (train_loader s3))]) s3 in
  set_console (console s4 ++ [BarDescription epoch]) s4.

(** The per-batch loss values of the training pass of epoch [epoch]
    started in [s]. *)
Definition training_losses (epoch : Z) (s : state Tensor Rng) : list float :=
  let ld := train_loader s in
  match sampler_order rt ld (train_pass_start epoch s) with
  | (Ok order, s2) => train_batch_losses ld 0 (chunks (ld_batch_size ld) order) s2
  | (Raise _, _) => []
  end.

End ValidationLosses.

(** ** Predicates of the statements *)

(** The index expressions at a length [n], checked together: the training
    slice ends where the validation slice starts, and the validation slice
    ends at the start of the test slice or one entry later. *)
Definition bounds_ok (n : Z) : bool :=
  match train_stop n, val_stop n, test_start n with
  | Some a, Some b, Some c =>
      (0 <=? a) && (a <=? b) && (b <=? n) && (c <? 0) && (- n <=? c)
      && ((b =? n + c) || (b =? n + c + 1))
  | _, _, _ => false
  end.

(** At length [n] the validation slice ends one entry after the start of
    the test slice. *)
Definition overlap_at (n : Z) : bool :=
  match val_stop n, test_start n with
  | Some b, Some c => b =? n + c + 1
  | _, _ => false
  end.

(** The epochs at which line 182 lets a checkpoint be written. *)
Definition checkpoint_epochs : list Z :=
  List.filter (fun e => (e + 1) mod 10 =? 0) (range n_epochs).

(** The conditions of lines 182 and 185. *)
Definition checkpoint_due (e : Z) : bool := (e + 1) mod 10 =? 0.

Definition validation_due (e : Z) : bool := (e + 1) mod val_interval =? 0.

(** A state function that a computation leaves as it found it. *)
Definition same {Tensor Rng X} (view : state Tensor Rng -> X)
    : relation (state Tensor Rng) :=
  fun s s' => view s' = view s.


Section Predicates.
Context {Tensor Rng : Type} (rt : Runtime Tensor Rng).
Implicit Types (s : state Tensor Rng).

(** [m] takes every start state to an end state related to it by [R],
    whether it returns or raises. *)
Definition respects (R : relation (state Tensor Rng)) {A}
    (m : M Tensor Rng A) : Prop :=
  forall s, R s (m s).2.

(** From [s], [m] returns a value and a state that satisfy [Q]. *)
Definition returns {A} (m : M Tensor Rng A) (Q : A -> state Tensor Rng -> Prop)
    s : Prop :=
  exists a s', m s = (Ok a, s') /\ Q a s'.

(** From [s], [m] raises [e] in a state that satisfies [Q]. *)
Definition raises {A} (m : M Tensor Rng A) (e : exn)
    (Q : state Tensor Rng -> Prop) s : Prop :=
  exists s', m s = (Raise e, s') /\ Q s'.

(** [m] runs the same whatever [test_loader] holds, and leaves it alone. *)
Definition ignores_test_loader {A} (m : M Tensor Rng A) : Prop :=
  forall (ld : loader) s,
    m (set_test_loader ld s) = ((m s).1, set_test_loader ld (m s).2).

(** What a step leaves in [timesteps] and [z]: the latent sampled from the
    encoding of the step's images, and one draw of [torch.randint] from [0]
    up to the scheduler's number of timesteps, of the latent's batch
    dimension. *)
Definition drew_timesteps (images : list ndarray) (s0 s' : state Tensor Rng) : Prop :=
  exists r g w r',
    timesteps s' =
      Some (randint rt 0 (num_train_timesteps (inf_scheduler (inferer s0)))
                    (batch_dim rt (z s')) r).1 /\
    z s' = (ae_sampling rt (ae_encode rt g w images).1
                           (ae_encode rt g w images).2 r').1.


(** What the training pass leaves alone. *)
Definition train_pass_view s :=
  (inferer s, train_loader s, val_loader s, test_loader s,
   saved s, validated_epochs s, val_step s, val_losses s).

(** What the validation pass leaves alone, however it ends. *)
Definition validation_view s :=
  (heap s, grads s, optimizer s, scaler s, parameters (unet s),
   autoencoderkl s, inferer s, train_loader s, val_loader s, test_loader s,
   saved s, epoch_losses s, epoch_loss s, step s).

(** What one epoch adds to the outputs. *)
Definition epoch_effect (e : Z) s s' : Prop :=
  train_loader s' = train_loader s /\
  val_loader s' = val_loader s /\
  saved_paths s' =
    saved_paths s ++ (if (e + 1) mod 10 =? 0 then [checkpoint_path e] else []) /\
  validated_epochs s' =
    validated_epochs s ++ (if (e + 1) mod val_interval =? 0 then [e] else []) /\
  length (epoch_losses s') = S (length (epoch_losses s)) /\
  length (val_losses s') =
    (length (val_losses s) + if ((e + 1) mod val_interval =? 0)%Z then 1 else 0)%nat /\
  ((e + 1) mod val_interval <> 0 ->
   val_step s' = val_step s /\ val_losses s' = val_losses s).

(** What a run of epochs adds to the outputs. *)
Definition epochs_effect (epochs : list Z) s s' : Prop :=
  train_loader s' = train_loader s /\
  val_loader s' = val_loader s /\
  saved_paths s' =
    saved_paths s ++ map checkpoint_path (List.filter checkpoint_due epochs) /\
  validated_epochs s' = validated_epochs s ++ List.filter validation_due epochs /\
  length (epoch_losses s') = (length (epoch_losses s) + length epochs)%nat /\
  length (val_losses s') =
    (length (val_losses s) + length (List.filter validation_due epochs))%nat /\
  (List.filter validation_due epochs = [] ->
   val_step s' = val_step s /\ val_losses s' = val_losses s).

(** From [s] to [s'] the optimizer's parameter group and the parameter
    lists of both networks stayed the same, and no tensor outside the
    optimizer's group changed. *)
Definition untouched_outside_optimizer s s' : Prop :=
  param_group (optimizer s') = param_group (optimizer s) /\
  parameters (autoencoderkl s') = parameters (autoencoderkl s) /\
  parameters (unet s') = parameters (unet s) /\
  forall p, ~ In p (param_group (optimizer s)) -> heap s' !! p = heap s !! p.

(** From [s] to [s'] checkpoints were written only for epochs at which
    one is due, and validation lines printed only for epochs at which a
    validation is due. *)
Definition on_schedule s s' : Prop :=
  exists saves lines,
    saved_paths s' = saved_paths s ++ map checkpoint_path saves /\
    validated_epochs s' = validated_epochs s ++ lines /\
    Forall (fun e => checkpoint_due e = true) saves /\
    Forall (fun e => validation_due e = true) lines.

(** From [s] to [s'] the two loss histories, the list of saved files and
    the console only grew at their ends. *)
Definition histories_extended s s' : Prop :=
  epoch_losses s `prefix_of` epoch_losses s' /\
  val_losses s `prefix_of` val_losses s' /\
  saved s `prefix_of` saved s' /\
  console s `prefix_of` console s'.

End Predicates.

(** * Properties *)

(** ** The split of the data list *)

Lemma slice_prefix {A} (l : list A) (a : Z) :
  0 <= a -> Py.slice l None (Some a) = take (Z.to_nat a) l.
Proof.
  intros Ha. unfold Py.slice, Py.clamp_index. cbn [from_option id].
  replace (0 <? 0) with false by reflexivity.
  rewrite (Z.min_l 0) by lia.
  change (Z.to_nat 0) with 0%nat. rewrite drop_0.
  destruct (a <? 0) eqn:E; [lia|].
  rewrite Z.sub_0_r.
  destruct (Z.le_ge_cases a (Z.of_nat (length l))).
  - rewrite Z.min_l by lia. reflexivity.
  - rewrite Z.min_r by lia. rewrite Nat2Z.id.
    rewrite !take_ge by lia. reflexivity.
Qed.

Lemma slice_between {A} (l : list A) (a b : Z) :
  0 <= a <= b ->
  Py.slice l (Some a) (Some b) = take (Z.to_nat b - Z.to_nat a) (drop (Z.to_nat a) l).
Proof.
  intros Hab. unfold Py.slice, Py.clamp_index. cbn [from_option id].
  destruct (a <? 0) eqn:Ea; [lia|]. destruct (b <? 0) eqn:Eb; [lia|].
  set (n := Z.of_nat (length l)).
  destruct (Z.le_ge_cases a n) as [Han|Han].
  - rewrite (Z.min_l a) by lia.
    destruct (Z.le_ge_cases b n) as [Hbn|Hbn].
    + rewrite Z.min_l by lia. f_equal. lia.
    + rewrite Z.min_r by lia.
      rewrite (take_ge _ (Z.to_nat b - Z.to_nat a)%nat)
        by (rewrite length_drop; subst n; lia).
      rewrite take_ge by (rewrite length_drop; subst n; lia). reflexivity.
  - rewrite (Z.min_r a) by lia.
    subst n. rewrite Nat2Z.id. rewrite !drop_ge by lia.
    rewrite !take_nil. reflexivity.
Qed.

Lemma slice_suffix {A} (l : list A) (c : Z) :
  - Z.of_nat (length l) <= c < 0 ->
  Py.slice l (Some c) None = drop (Z.to_nat (Z.of_nat (length l) + c)) l.
Proof.
  intros Hc. unfold Py.slice, Py.clamp_index. cbn [from_option id].
  destruct (c <? 0) eqn:Ec; [|lia].
  destruct (Z.of_nat (length l) <? 0) eqn:El; [lia|].
  rewrite Z.max_l by lia. rewrite Z.min_l by lia.
  rewrite (Z.add_comm c). apply take_ge. rewrite length_drop. lia.
Qed.

(** [l[-0:]] is [l[0:]]: the whole list. *)
Lemma slice_from_zero {A} (l : list A) : Py.slice l (Some 0) None = l.
Proof.
  unfold Py.slice, Py.clamp_index. cbn [from_option id].
  replace (0 <? 0) with false by reflexivity.
  destruct (Z.of_nat (length l) <? 0) eqn:El; [apply Z.ltb_lt in El; lia|].
  rewrite (Z.min_l 0) by lia. rewrite Z.min_r by lia.
  change (Z.to_nat 0) with 0%nat. rewrite drop_0.
  rewrite Z.sub_0_r, Nat2Z.id. apply take_ge. lia.
Qed.

Lemma bounds_ok_10_4000 :
  forallb bounds_ok (map Z.of_nat (seq 10 3991)) = true.
Proof. vm_compute. reflexivity. Qed.

Lemma bounds_ok_range (n : nat) :
  (10 <= n <= 4000)%nat -> bounds_ok (Z.of_nat n) = true.
Proof.
  intros Hn. pose proof bounds_ok_10_4000 as H.
  rewrite forallb_forall in H. apply H.
  apply in_map. apply in_seq. lia.
Qed.

(** X2.  The training and validation lists never share an entry. *)
Lemma split_train_val_disjoint (ds : list datum) (sp : split) :
  NoDup ds -> split_dataset ds = Some sp ->
  forall x, In x (train_datalist sp) -> In x (val_datalist sp) -> False.
Proof.
  intros Hnd Hsp x Ht Hv. unfold split_dataset in Hsp.
  destruct (train_stop _) as [a|]; [|discriminate]. cbn in Hsp.
  destruct (val_stop _) as [b|]; [|discriminate]. cbn in Hsp.
  destruct (test_start _) as [c|]; [|discriminate]. cbn in Hsp.
  injection Hsp as <-. cbn in Ht, Hv.
  unfold Py.slice in Ht, Hv. cbn [from_option id] in Ht, Hv.
  set (n := Z.of_nat (length ds)) in *.
  assert (Hlo0 : Py.clamp_index n 0 = 0).
  { unfold Py.clamp_index. replace (0 <? 0) with false by reflexivity.
    apply Z.min_l. subst n. lia. }
  rewrite Hlo0 in Ht, Hv. change (Z.to_nat 0) with 0%nat in Ht, Hv.
  rewrite drop_0, Z.sub_0_r in Ht, Hv.
  set (h := Z.to_nat (Py.clamp_index n a)) in *.
  assert (Hh : (h <= length ds)%nat).
  { subst h n. unfold Py.clamp_index.
    destruct (a <? 0) eqn:E; [apply Z.ltb_lt in E|apply Z.ltb_ge in E]; lia. }
  assert (Hlen : length (take h ds) = h) by (rewrite length_take; lia).
  rewrite Hlen in Hv.
  assert (Hlo : Py.clamp_index n (Z.of_nat h) = Z.of_nat h).
  { unfold Py.clamp_index. destruct (Z.of_nat h <? 0) eqn:E; [lia|].
    apply Z.min_l. subst n. lia. }
  rewrite Hlo, Nat2Z.id in Hv.
  apply list_elem_of_In in Ht, Hv.
  apply elem_of_take in Hv as (i & Hi & _).
  apply elem_of_take in Ht as (j & Hj & Hjh).
  rewrite lookup_drop in Hi.
  pose proof (NoDup_lookup _ _ _ _ Hnd Hi Hj). lia.
Qed.

(** X3.  From ten entries on, the three lists cover the data list in order,
    with at most the last validation entry repeated at the head of the
    test list. *)
Lemma split_covers (ds : list datum) :
  (10 <= length ds <= 4000)%nat ->
  exists sp k, split_dataset ds = Some sp /\ (k <= 1)%nat /\
    train_datalist sp ++ val_datalist sp ++ drop k (test_datalist sp) = ds.
Proof.
  intros Hn. pose proof (bounds_ok_range _ Hn) as Hb.
  unfold bounds_ok in Hb. unfold split_dataset.
  destruct (train_stop _) as [a|]; [|discriminate].
  destruct (val_stop _) as [b|]; [|discriminate].
  destruct (test_start _) as [c|]; [|discriminate]. cbn.
  repeat (apply andb_prop in Hb as [Hb ?]).
  set (n := Z.of_nat (length ds)) in *.
  assert (0 <= a) by lia. assert (a <= b) by lia. assert (b <= n) by lia.
  assert (c < 0) by lia. assert (- n <= c) by lia.
  assert (Hbc : b = n + c \/ b = n + c + 1) by lia.
  eexists _, (Z.to_nat (b - (n + c))). split; [reflexivity|]. split; [lia|].
  cbn. rewrite slice_prefix by lia.
  rewrite length_take, Nat.min_l by lia. rewrite Z2Nat.id by lia.
  rewrite slice_between by lia. rewrite slice_suffix by (subst n; lia).
  fold n. rewrite drop_drop.
  replace (Z.to_nat (n + c) + Z.to_nat (b - (n + c)))%nat with (Z.to_nat b) by lia.
  rewrite <- (take_drop (Z.to_nat a) ds) at 4. f_equal.
  rewrite <- (take_drop (Z.to_nat b - Z.to_nat a) (drop (Z.to_nat a) ds)) at 2.
  f_equal. rewrite drop_drop. f_equal. lia.
Qed.

(** X4.  At the cap of 4000 entries the split is an exact 2800/800/400
    partition. *)
Lemma split_exact_at_cap (ds : list datum) :
  length ds = 4000%nat ->
  exists sp, split_dataset ds = Some sp /\
    train_datalist sp ++ val_datalist sp ++ test_datalist sp = ds /\
    length (train_datalist sp) = 2800%nat /\
    length (val_datalist sp) = 800%nat /\
    length (test_datalist sp) = 400%nat.
Proof.
  intros Hn. unfold split_dataset. rewrite Hn.
  replace (train_stop (Z.of_nat 4000)) with (Some 2800) by (vm_compute; reflexivity).
  replace (val_stop (Z.of_nat 4000)) with (Some 3600) by (vm_compute; reflexivity).
  replace (test_start (Z.of_nat 4000)) with (Some (-400)) by (vm_compute; reflexivity).
  cbn [mbind option_bind]. eexists. split; [reflexivity|]. cbn.
  rewrite slice_prefix by lia. rewrite length_take, Hn.
  change (Z.to_nat 2800) with 2800%nat. rewrite Nat.min_l by lia.
  rewrite slice_between by lia. rewrite Nat2Z.id.
  change (Z.to_nat 3600 - 2800)%nat with 800%nat.
  rewrite slice_suffix by lia. rewrite Hn.
  change (Z.to_nat (Z.of_nat 4000 + -400)) with 3600%nat.
  rewrite !length_take, !length_drop, Hn.
  split; [|repeat split; reflexivity].
  rewrite <- (take_drop 2800 ds) at 4. f_equal.
  rewrite <- (take_drop 800 (drop 2800 ds)) at 2. f_equal.
  rewrite drop_drop. reflexivity.
Qed.

(** The lengths from ten to the cap at which the last validation entry is
    also the first test entry. *)
Lemma split_overlap_sizes :
  List.filter overlap_at (map Z.of_nat (seq 10 3991)) =
  [10; 20; 40; 80; 150; 160; 290; 300; 310; 320; 570; 580; 590; 600; 610;
   620; 630; 640; 1140; 1150; 1160; 1170; 1180; 1190; 1200; 1210; 1220;
   1230; 1240; 1250; 1260; 1270; 1280; 2280; 2290; 2300; 2310; 2320; 2330;
   2340; 2350; 2360; 2370; 2380; 2390; 2400; 2410; 2420; 2430; 2440; 2450;
   2460; 2470; 2480; 2490; 2500; 2510; 2520; 2530; 2540; 2550; 2560].
Proof. vm_compute. reflexivity. Qed.

(** X5.  With fewer than ten entries the start index of the test slice is
    [-0], and the test list is the whole data list. *)
Lemma split_short_listing (ds : list datum) :
  (length ds <= 9)%nat ->
  exists sp, split_dataset ds = Some sp /\ test_datalist sp = ds.
Proof.
  intros Hn. unfold split_dataset.
  assert (Hb : forallb (fun n => match train_stop n, val_stop n, test_start n with
                                 | Some _, Some _, Some 0 => true
                                 | _, _, _ => false
                                 end) (map Z.of_nat (seq 0 10)) = true)
    by (vm_compute; reflexivity).
  rewrite forallb_forall in Hb.
  assert (Hin : In (Z.of_nat (length ds)) (map Z.of_nat (seq 0 10)))
    by (apply in_map, in_seq; lia).
  specialize (Hb _ Hin).
  destruct (train_stop _) as [a|]; [|discriminate].
  destruct (val_stop _) as [b|]; [|discriminate].
  destruct (test_start _) as [[| |]|]; try discriminate.
  cbn. eexists. split; [reflexivity|]. cbn. apply slice_from_zero.
Qed.

(** C1 (as the code behaves).  With five files the test list is the whole
    data list, so it shares entries with the training list and the three
    sizes add up to ten; with ten files the last validation entry is also
    the test entry and the sizes add up to eleven.  The three lists are
    therefore not pairwise disjoint for every dataset size. *)
Theorem split_lists_overlap :
  (exists sp, split_dataset (geomodels_dataset (numbered_files 5)) = Some sp /\
     test_datalist sp = geomodels_dataset (numbered_files 5) /\
     In (Datum "./imgs/0") (train_datalist sp) /\
     In (Datum "./imgs/0") (test_datalist sp) /\
     (length (train_datalist sp) + length (val_datalist sp)
      + length (test_datalist sp) = 10)%nat) /\
  (exists sp, split_dataset (geomodels_dataset (numbered_files 10)) = Some sp /\
     In (Datum "./imgs/9") (val_datalist sp) /\
     In (Datum "./imgs/9") (test_datalist sp) /\
     (length (train_datalist sp) + length (val_datalist sp)
      + length (test_datalist sp) = 11)%nat).
Proof.
  split.
  - eexists. split; [vm_compute; reflexivity|].
    cbn. repeat split; auto 10.
  - eexists. split; [vm_compute; reflexivity|].
    cbn. repeat split; auto 20.
Qed.

(** ** The checkpoint path *)

(** C2 (as the code behaves).  At every epoch that writes a checkpoint,
    the path given to [torch.save] is the directory name followed by the
    literal text [ + /] and the file name: its parent directory is
    ["./trained_unet/ + "], not the configured directory, although the file
    name does embed the epoch number.  The joined path of directory and
    file name would lie in the directory. *)
Theorem checkpoint_path_not_in_directory :
  Forall (fun e =>
    checkpoint_path e = trained_unet_dir +:+ " + /" +:+ unet_checkpoint_name e /\
    Path.dirname (checkpoint_path e) = "./trained_unet/ + " /\
    Path.basename (checkpoint_path e) = unet_checkpoint_name e /\
    ~ Path.located_in trained_unet_dir (checkpoint_path e) /\
    Path.located_in trained_unet_dir
      (Path.join trained_unet_dir (unet_checkpoint_name e)))
    checkpoint_epochs.
Proof.
  apply Forall_forall. intros e He.
  assert (Hb : forallb (fun e =>
            String.eqb (checkpoint_path e)
              (trained_unet_dir +:+ " + /" +:+ unet_checkpoint_name e)
            && String.eqb (Path.dirname (checkpoint_path e)) "./trained_unet/ + "
            && String.eqb (Path.basename (checkpoint_path e)) (unet_checkpoint_name e)
            && negb (String.eqb (Path.dirname (checkpoint_path e)) "./trained_unet")
            && String.eqb
                 (Path.dirname (Path.join trained_unet_dir (unet_checkpoint_name e)))
                 "./trained_unet")
          checkpoint_epochs = true) by (vm_compute; reflexivity).
  rewrite forallb_forall in Hb. apply list_elem_of_In in He.
  specialize (Hb e He).
  repeat (apply andb_prop in Hb as [Hb ?]).
  repeat match goal with
         | H : String.eqb _ _ = true |- _ => apply String.eqb_eq in H
         | H : negb (String.eqb _ _) = true |- _ =>
             apply negb_true_iff, String.eqb_neq in H
         end.
  unfold Path.located_in.
  change (string_of_list_ascii
            (Path.rstrip_slash (list_ascii_of_string trained_unet_dir)))
    with "./trained_unet"%string.
  repeat split; assumption.
Qed.

(** ** The intensity transform *)



(** ** Reasoning about the monad *)

Section Frames.
Context {Tensor Rng : Type}.
Implicit Types (s : state Tensor Rng).

Context (R : relation (state Tensor Rng)) `{!PreOrder R}.

Lemma respects_ret {A} (a : A) : respects R (ret a).
Proof. intros s. reflexivity. Qed.

Lemma respects_raise {A} (e : exn) : respects R (raise (A := A) e).
Proof. intros s. reflexivity. Qed.

Lemma respects_get : respects R get.
Proof. intros s. reflexivity. Qed.

Lemma respects_lift {A} (o : outcome A) : respects R (lift o).
Proof. intros s. reflexivity. Qed.

Lemma respects_modify (f : state Tensor Rng -> state Tensor Rng) :
  (forall s, R s (f s)) -> respects R (modify f).
Proof. intros H s. apply H. Qed.

Lemma respects_bind {A B} (m : M Tensor Rng A) (k : A -> M Tensor Rng B) :
  respects R m -> (forall a, respects R (k a)) -> respects R (bind m k).
Proof.
  intros Hm Hk s. unfold bind. specialize (Hm s).
  destruct (m s) as [[a|e] s1]; cbn in *; [|assumption].
  etrans; [exact Hm|apply Hk].
Qed.

Lemma respects_draw {A} (f : Rng -> A * Rng) :
  (forall s r, R s (set_rng r s)) -> respects R (draw f).
Proof. intros H s. unfold draw. destruct (f (rng s)). apply H. Qed.

Lemma respects_no_grad {A} (m : M Tensor Rng A) :
  (forall s b, R s (set_grad_enabled b s)) ->
  respects R m -> respects R (no_grad m).
Proof.
  intros Hg Hm s. unfold no_grad.
  specialize (Hm (set_grad_enabled false s)).
  destruct (m _) as [o s1]; cbn in *.
  etrans; [apply (Hg s false)|]. etrans; [exact Hm|apply Hg].
Qed.

End Frames.

Section ScriptFrames.
Context {Tensor Rng : Type} (rt : Runtime Tensor Rng) (disk : Disk Tensor).
Context (R : relation (state Tensor Rng)) `{!PreOrder R}.

Lemma respects_for_batches ld k batches body :
  (forall k images, respects R (body k images)) ->
  respects R (for_batches disk ld k batches body).
Proof.
  intros Hbody. revert k.
  induction batches as [|b batches IH]; intros k; cbn [for_batches].
  - apply respects_ret; assumption.
  - apply respects_bind; [assumption|apply respects_lift; assumption|].
    intros images. apply respects_bind; [assumption|apply Hbody|].
    intros _. apply IH.
Qed.

Lemma respects_for_enumerate ld start body :
  (forall s r, R s (set_rng r s)) ->
  (forall k images, respects R (body k images)) ->
  respects R (for_enumerate rt disk ld start body).
Proof.
  intros Hrng Hbody. unfold for_enumerate, sampler_order.
  apply respects_bind; [assumption| |].
  - destruct (ld_shuffle ld).
    + apply respects_draw; assumption.
    + apply respects_ret; assumption.
  - intros order. apply respects_for_batches. assumption.
Qed.

Lemma respects_for_epochs epochs :
  (forall e, respects R (epoch_body rt disk e)) ->
  respects R (for_epochs rt disk epochs).
Proof.
  intros Hbody. induction epochs as [|e epochs IH]; cbn [for_epochs].
  - apply respects_ret; assumption.
  - apply respects_bind; [assumption|apply Hbody|]. intros _. exact IH.
Qed.

End ScriptFrames.

#[local] Instance same_preorder {Tensor Rng X} (view : state Tensor Rng -> X) :
  PreOrder (same view).
Proof.
  split.
  - intros s. reflexivity.
  - intros s1 s2 s3 H12 H23. unfold same in *. congruence.
Qed.

Ltac head_of t :=
  lazymatch t with
  | ?f _ => head_of f
  | _ => t
  end.

(** Reduces a frame goal on a piece of the script to goals on its state
    updates. *)
Ltac frame_step :=
  lazymatch goal with
  | |- respects _ (bind _ _) => apply respects_bind; [tc_solve| |intros ?]
  | |- respects _ (ret _) => apply respects_ret; tc_solve
  | |- respects _ (raise _) => apply respects_raise; tc_solve
  | |- respects _ get => apply respects_get; tc_solve
  | |- respects _ (lift _) => apply respects_lift; tc_solve
  | |- respects _ (modify _) => apply respects_modify; intros ?
  | |- respects _ (draw _) => apply respects_draw; intros ? ?
  | |- respects _ (emit _) => unfold emit; apply respects_modify; intros ?
  | |- respects _ (no_grad _) => apply respects_no_grad; [tc_solve|intros ? ?|]
  | |- respects _ (for_enumerate _ _ _ _ _) =>
      apply respects_for_enumerate; [tc_solve|intros ? ?|intros ? ?]
  | |- respects _ (for_epochs _ _ _) =>
      apply respects_for_epochs; [tc_solve|intros ?]
  | |- respects _ (match ?x with _ => _ end) => destruct x
  | |- respects _ ?m => let h := head_of m in unfold h
  end.

(** Closes a goal saying that one state update leaves a projection of
    the state unchanged. *)
Ltac same_field :=
  unfold same, zero_grad, scaled_backward, scaler_step, scaler_update,
    optimizer_step;
  repeat case_match; reflexivity.

(** The same for a projection whose value is known from [H]. *)
Ltac same_field_with H :=
  unfold zero_grad, scaled_backward, scaler_step, scaler_update, optimizer_step;
  repeat case_match; cbn; try exact H; try reflexivity.

Section Invariance.
Context {Tensor Rng : Type} (rt : Runtime Tensor Rng) (disk : Disk Tensor).

(** No step of the loop rebinds [inferer] or any of the three loaders. *)
Lemma training_loop_keeps_setup :
  respects (same (fun s : state Tensor Rng =>
              (inferer s, train_loader s, val_loader s, test_loader s)))
           (training_loop rt disk).
Proof. repeat frame_step; same_field. Qed.

End Invariance.

Section ScaleFactor.
Context {Tensor Rng : Type} (rt : Runtime Tensor Rng) (disk : Disk Tensor).

(** C5.  When set-up succeeds, the inferer's scale factor is [1 / std(z)]
    for the latent [z] obtained, with autograd off, from the first batch of
    one pass over the training loader; and whatever epochs are then run,
    to completion or to an exception, the inferer still holds that same
    scale factor (although [z] itself is rebound by every step). *)
Theorem scale_factor_computed_once (sp : split) (r0 : Rng) (s0 : state Tensor Rng) :
  setup_from_split rt disk sp r0 = Ok s0 ->
  inf_scale_factor (inferer s0) = tensor_rdiv rt 1 (tensor_std rt (z s0)) /\
  (exists r order r' b rest images r'',
     randperm rt (length (ds_data (ld_dataset (train_loader s0)))) r = (order, r') /\
     chunks (ld_batch_size (train_loader s0)) order = b :: rest /\
     fetch (read_image disk) (ld_dataset (train_loader s0)) b = Ok images /\
     let mu_sigma :=
       ae_encode rt false (state_dict (heap s0) (autoencoderkl s0)) images in
     ae_sampling rt mu_sigma.1 mu_sigma.2 r' = (z s0, r'')) /\
  (forall epochs, inferer (for_epochs rt disk epochs s0).2 = inferer s0) /\
  inferer (training_loop rt disk s0).2 = inferer s0.
Proof.
  intros Hsetup. unfold setup_from_split in Hsetup.
  repeat case_match; try discriminate. injection Hsetup as <-.
  cbn. split; [reflexivity|]. split.
  - do 7 eexists. repeat split; eassumption.
  - split.
    + intros epochs.
      assert (Hfr : respects (same (fun s : state Tensor Rng => inferer s))
                    (for_epochs rt disk epochs))
        by (repeat frame_step; same_field).
      apply Hfr.
    + assert (Hfr : respects (same (fun s : state Tensor Rng => inferer s))
                    (training_loop rt disk))
        by (repeat frame_step; same_field).
      apply Hfr.
Qed.

End ScaleFactor.

(** ** Runs that return *)

Section Returns.
Context {Tensor Rng : Type}.
Implicit Types (s : state Tensor Rng).

Lemma returns_ret {A} (a : A) Q s : Q a s -> returns (ret a) Q s.
Proof. intros H. exists a, s. split; [reflexivity|assumption]. Qed.

Lemma returns_get Q s : Q s s -> returns get Q s.
Proof. intros H. exists s, s. split; [reflexivity|assumption]. Qed.

Lemma returns_modify f Q s : Q tt (f s) -> returns (modify f) Q s.
Proof. intros H. exists tt, (f s). split; [reflexivity|assumption]. Qed.

Lemma returns_emit e Q s :
  Q tt (set_console (console s ++ [e]) s) -> returns (emit e) Q s.
Proof. apply returns_modify. Qed.

Lemma returns_lift {A} (a : A) Q s : Q a s -> returns (lift (Ok a)) Q s.
Proof. intros H. exists a, s. split; [reflexivity|assumption]. Qed.

Lemma returns_draw {A} (f : Rng -> A * Rng) Q s :
  Q (f (rng s)).1 (set_rng (f (rng s)).2 s) -> returns (draw f) Q s.
Proof.
  intros H. unfold returns, draw. destruct (f (rng s)) as [a r].
  exists a, (set_rng r s). split; [reflexivity|assumption].
Qed.

Lemma returns_bind {A B} (m : M Tensor Rng A) (k : A -> M Tensor Rng B) Q s :
  returns m (fun a s1 => returns (k a) Q s1) s -> returns (bind m k) Q s.
Proof.
  intros (a & s1 & Hm & b & s2 & Hk & HQ).
  exists b, s2. split; [|assumption]. unfold bind. rewrite Hm. exact Hk.
Qed.

Lemma returns_no_grad {A} (m : M Tensor Rng A) Q s :
  returns m (fun a s' => Q a (set_grad_enabled (grad_enabled s) s'))
          (set_grad_enabled false s) ->
  returns (no_grad m) Q s.
Proof.
  intros (a & s1 & Hm & HQ). exists a, (set_grad_enabled (grad_enabled s) s1).
  split; [|assumption]. unfold no_grad. rewrite Hm. reflexivity.
Qed.

Lemma returns_mono {A} (m : M Tensor Rng A) (Q Q' : A -> state Tensor Rng -> Prop) s :
  (forall a s', Q a s' -> Q' a s') -> returns m Q s -> returns m Q' s.
Proof. intros HQ (a & s' & Hm & H). exists a, s'. auto. Qed.

(** A frame property holds of the end state of a run that returns. *)
Lemma returns_respects {A} (m : M Tensor Rng A) R Q s :
  respects R m -> returns m Q s -> returns m (fun a s' => Q a s' /\ R s s') s.
Proof.
  intros HR (a & s' & Hm & HQ). exists a, s'. repeat split; try assumption.
  specialize (HR s). rewrite Hm in HR. exact HR.
Qed.

Lemma bind_ok {A B} (m : M Tensor Rng A) (k : A -> M Tensor Rng B) s a s1 :
  m s = (Ok a, s1) -> bind m k s = k a s1.
Proof. intros H. unfold bind. rewrite H. reflexivity. Qed.

Lemma bind_raise {A B} (m : M Tensor Rng A) (k : A -> M Tensor Rng B) s e s1 :
  m s = (Raise e, s1) -> bind m k s = (Raise e, s1).
Proof. intros H. unfold bind. rewrite H. reflexivity. Qed.

End Returns.

(** One step of symbolic execution of a piece of the script. *)
Ltac run_step :=
  cbv beta;
  lazymatch goal with
  | |- returns (bind _ _) _ _ => apply returns_bind
  | |- returns (ret _) _ _ => apply returns_ret
  | |- returns get _ _ => apply returns_get
  | |- returns (modify _) _ _ => apply returns_modify
  | |- returns (emit _) _ _ => apply returns_emit
  | |- returns (draw _) _ _ => apply returns_draw
  | |- returns (lift (Ok _)) _ _ => apply returns_lift
  | |- returns (no_grad _) _ _ => apply returns_no_grad
  end.

Section Steps.
Context {Tensor Rng : Type} (rt : Runtime Tensor Rng) (disk : Disk Tensor).
Implicit Types (s : state Tensor Rng).

Lemma returns_read_step (Q : Z -> state Tensor Rng -> Prop) s k :
  step s = Some k -> Q k s -> returns read_step Q s.
Proof.
  intros Hk HQ. exists k, s. split; [|assumption].
  unfold read_step, bind, get. rewrite Hk. reflexivity.
Qed.

Lemma returns_read_val_step (Q : Z -> state Tensor Rng -> Prop) s k :
  val_step s = Some k -> Q k s -> returns read_val_step Q s.
Proof.
  intros Hk HQ. exists k, s. split; [|assumption].
  unfold read_val_step, bind, get. rewrite Hk. reflexivity.
Qed.

(** The forward computation of a step always returns. *)
Lemma forward_loss_returns (images : list ndarray) s :
  returns (forward_loss rt images) (fun _ s' => drew_timesteps rt images s s') s.
Proof.
  unfold forward_loss, encode_and_sample, call_inferer.
  repeat run_step. cbn.
  do 4 eexists. split; reflexivity.
Qed.

(** A training step always returns, and leaves [step] bound to its index. *)
Lemma train_batch_returns (k : Z) (images : list ndarray) s :
  returns (train_batch rt k images)
    (fun _ s' => step s' = Some k /\ drew_timesteps rt images s s') s.
Proof.
  unfold train_batch.
  apply returns_bind, returns_modify.
  apply returns_bind, returns_modify.
  apply returns_bind.
  eapply returns_mono;
    [|apply (returns_respects _ (same (fun s : state Tensor Rng => step s)));
      [repeat frame_step; same_field|apply forward_loss_returns]].
  intros loss s1 [(r & g & w & r' & Hts & Hz) Hstep].
  unfold same in Hstep. cbn in Hstep, Hts.
  repeat (apply returns_bind, returns_modify).
  apply returns_bind.
  eapply (returns_read_step _ _ k); [same_field_with Hstep|].
  repeat run_step.
  match goal with
  | |- step ?sf = _ /\ _ =>
      assert (Hs : step sf = step s1) by same_field;
      assert (Ht : timesteps sf = timesteps s1) by same_field;
      assert (Hz' : z sf = z s1) by same_field
  end.
  split; [congruence|].
  exists r, g, w, r'. rewrite Ht, Hz'. split; assumption.
Qed.


End Steps.

Section Timesteps.
Context {Tensor Rng : Type} (rt : Runtime Tensor Rng) (disk : Disk Tensor).



End Timesteps.

(** ** Loading batches *)

Lemma chunks_nonempty {A} (n : nat) (l : list A) : l <> [] -> chunks n l <> [].
Proof. destruct l; [congruence|]. intros _. unfold chunks. cbn. discriminate. Qed.

Lemma chunks_aux_incl {A} (fuel n : nat) (l b : list A) (x : A) :
  In b (chunks_aux fuel n l) -> In x b -> In x l.
Proof.
  revert l. induction fuel as [|fuel IH]; intros l Hb Hx; cbn in Hb; [contradiction|].
  destruct l as [|y l]; [contradiction|].
  destruct Hb as [<-|Hb].
  - apply list_elem_of_In, elem_of_take in Hx as (i & Hi & _).
    apply list_elem_of_In. eapply list_elem_of_lookup_2. exact Hi.
  - specialize (IH _ Hb Hx).
    apply list_elem_of_In, list_elem_of_lookup in IH as (i & Hi).
    rewrite lookup_drop in Hi.
    apply list_elem_of_In. eapply list_elem_of_lookup_2. exact Hi.
Qed.

Lemma chunks_incl {A} (n : nat) (l b : list A) (x : A) :
  In b (chunks n l) -> In x b -> In x l.
Proof. apply chunks_aux_incl. Qed.

(** A batch of valid indices into a dataset whose samples all load is
    fetched, one array per index. *)
Lemma fetch_returns (read : string -> option ndarray) (ds : dataset)
    (idxs : list nat) :
  (forall i, In i idxs -> (i < length (ds_data ds))%nat) ->
  (forall d, In d (ds_data ds) -> exists a, getitem read ds d = Ok (ItemArray a)) ->
  exists images, fetch read ds idxs = Ok images /\ length images = length idxs.
Proof.
  intros Hidx Hload. induction idxs as [|i idxs IH]; cbn [fetch].
  - exists []. split; reflexivity.
  - destruct (lookup_lt_is_Some_2 (ds_data ds) i) as [d Hd].
    { apply Hidx. left. reflexivity. }
    rewrite Hd.
    destruct (Hload d) as [a Ha].
    { apply list_elem_of_In. eapply list_elem_of_lookup_2. exact Hd. }
    rewrite Ha.
    destruct IH as (rest & Hrest & Hlen).
    { intros j Hj. apply Hidx. right. exact Hj. }
    rewrite Hrest. exists (a :: rest). split; [reflexivity|]. cbn. congruence.
Qed.

Section Loops.
Context {Tensor Rng : Type} (rt : Runtime Tensor Rng) (disk : Disk Tensor).
Implicit Types (s : state Tensor Rng).

(** A loop over batches that all load, with a body that always returns,
    returns; if there is at least one batch, what the body establishes at
    the last index holds at the end. *)
Lemma for_batches_returns (ld : loader) (body : Z -> list ndarray -> M Tensor Rng unit)
    (P : Z -> state Tensor Rng -> Prop) (batches : list (list nat)) (k : Z) s :
  (forall b, In b batches ->
     exists images, fetch (read_image disk) (ld_dataset ld) b = Ok images) ->
  (forall k images s, returns (body k images) (fun _ s' => P k s') s) ->
  batches <> [] ->
  returns (for_batches disk ld k batches body)
          (fun _ s' => P (k + Z.of_nat (length batches) - 1) s') s.
Proof.
  intros Hfetch Hbody. revert k s.
  induction batches as [|b batches IH]; intros k s Hne; [congruence|].
  cbn [for_batches].
  destruct (Hfetch b) as [images Himages]; [left; reflexivity|].
  rewrite Himages. apply returns_bind, returns_lift.
  apply returns_bind.
  eapply returns_mono; [|apply Hbody].
  intros ? s1 HP. cbv beta in HP.
  destruct batches as [|b' batches].
  - cbn [for_batches]. apply returns_ret.
    replace (k + Z.of_nat (length [b]) - 1) with k by (cbn; lia). exact HP.
  - eapply returns_mono; [|apply IH].
    + intros ? s2 HP2. cbv beta in HP2.
      replace (k + Z.of_nat (length (b :: b' :: batches)) - 1)
        with (k + 1 + Z.of_nat (length (b' :: batches)) - 1)
        by (cbn [length]; lia).
      exact HP2.
    + intros b0 Hb0. apply Hfetch. right. exact Hb0.
    + discriminate.
Qed.

(** One pass over a loader whose dataset is not empty and loads. *)
Lemma for_enumerate_returns (ld : loader) (start : Z)
    (body : Z -> list ndarray -> M Tensor Rng unit)
    (P : Z -> state Tensor Rng -> Prop) s :
  RuntimeSpec rt ->
  loader_ok (read_image disk) ld ->
  (forall k images s, returns (body k images) (fun _ s' => P k s') s) ->
  returns (for_enumerate rt disk ld start body)
          (fun _ s' => exists n, 0 < n /\ P (start + n - 1) s') s.
Proof.
  intros Hrt (Hne & Hbs & Hload) Hbody. unfold for_enumerate.
  apply returns_bind.
  assert (Horder : forall order : list nat,
            Permutation order (seq 0 (length (ds_data (ld_dataset ld)))) ->
            forall s1,
            returns (for_batches disk ld start (chunks (ld_batch_size ld) order) body)
              (fun _ s' => exists n, 0 < n /\ P (start + n - 1) s') s1).
  { intros order Hperm s1.
    assert (Hnonempty : order <> []).
    { intros ->. apply Permutation_nil in Hperm.
      destruct (ds_data (ld_dataset ld)); [congruence|discriminate]. }
    eapply returns_mono; [|apply for_batches_returns with (P := P)].
    - intros ? s' HP. cbv beta in HP. eexists. split; [|exact HP].
      pose proof (chunks_nonempty (ld_batch_size ld) order Hnonempty) as Hc.
      destruct (chunks _ order); [congruence|]. cbn [length]. lia.
    - intros b Hb.
      destruct (fetch_returns (read_image disk) (ld_dataset ld) b) as (images & Hi & _).
      + intros i Hi.
        pose proof (chunks_incl _ _ _ _ Hb Hi) as Hin.
        apply (Permutation_in _ Hperm), in_seq in Hin. lia.
      + exact Hload.
      + exists images. exact Hi.
    - exact Hbody.
    - apply chunks_nonempty. exact Hnonempty. }
  unfold sampler_order. destruct (ld_shuffle ld).
  - apply returns_draw. apply Horder. apply (randperm_perm rt Hrt).
  - apply returns_ret. apply Horder. reflexivity.
Qed.

End Loops.

(** ** Runs that raise *)

Section Raises.
Context {Tensor Rng : Type}.
Implicit Types (s : state Tensor Rng).

Lemma raises_bind_first {A B} (m : M Tensor Rng A) (k : A -> M Tensor Rng B) e Q s :
  raises m e Q s -> raises (bind m k) e Q s.
Proof.
  intros (s' & Hm & HQ). exists s'. split; [|assumption].
  apply bind_raise. exact Hm.
Qed.

Lemma raises_bind_later {A B} (m : M Tensor Rng A) (k : A -> M Tensor Rng B) e Q s :
  returns m (fun a s1 => raises (k a) e Q s1) s -> raises (bind m k) e Q s.
Proof.
  intros (a & s1 & Hm & s' & Hk & HQ). exists s'. split; [|assumption].
  rewrite (bind_ok _ _ _ _ _ Hm). exact Hk.
Qed.

Lemma raises_mono {A} (m : M Tensor Rng A) e (Q Q' : state Tensor Rng -> Prop) s :
  (forall s', Q s' -> Q' s') -> raises m e Q s -> raises m e Q' s.
Proof. intros HQ (s' & Hm & H). exists s'. auto. Qed.

End Raises.

Section Console.
Context {Tensor Rng : Type}.
Implicit Types (s : state Tensor Rng).

Lemma validated_epochs_emit s (ev : console_event) :
  validated_epochs (set_console (console s ++ [ev]) s) =
  validated_epochs s ++ match ev with
                        | PrintValLoss e _ => [e]
                        | _ => []
                        end.
Proof.
  unfold validated_epochs. cbn. rewrite omap_app. f_equal.
  destruct ev; reflexivity.
Qed.

End Console.

(** Closes a goal saying that one state update leaves a view of the state
    unchanged, where the view may include the validated epochs and the
    update may print progress. *)
Ltac same_view :=
  unfold same, zero_grad, scaled_backward, scaler_step, scaler_update,
    optimizer_step, saved_paths;
  repeat case_match; unfold validated_epochs; cbn;
  rewrite ?omap_app; cbn; rewrite ?app_nil_r;
  reflexivity.

(** One step of symbolic execution toward an exception. *)
Ltac raise_step := apply raises_bind_later; repeat run_step; cbv beta.

Section Passes.
Context {Tensor Rng : Type} (rt : Runtime Tensor Rng) (disk : Disk Tensor).
Implicit Types (s : state Tensor Rng).

Lemma train_pass_frame (e : Z) :
  respects (same train_pass_view) (train_pass rt disk e).
Proof. repeat frame_step; unfold train_pass_view; same_view. Qed.

(** What a pass over the training batches leaves alone. *)
Lemma train_batches_frame (ld : loader) :
  respects (same (fun s => (epoch_losses s, train_loader s)))
           (for_enumerate rt disk ld 0 (train_batch rt)).
Proof. repeat frame_step; same_view. Qed.

(** With a training loader that is not empty and loads, the training pass
    returns and records one more epoch loss. *)
Lemma train_pass_returns (e : Z) s :
  RuntimeSpec rt ->
  loader_ok (read_image disk) (train_loader s) ->
  returns (train_pass rt disk e)
          (fun _ s' => exists x, epoch_losses s' = epoch_losses s ++ [x]) s.
Proof.
  intros Hrt Hok. unfold train_pass.
  repeat run_step.
  cbn [train_loader set_console set_epoch_loss set_autoencoderkl set_unet].
  eapply returns_mono;
    [|eapply returns_respects;
      [apply train_batches_frame
      |apply for_enumerate_returns with (P := fun k s' => step s' = Some k);
       [exact Hrt|exact Hok|]]].
  - intros ? s1 [(n & Hn & Hstep) Hsame]. cbv beta in *.
    unfold same in Hsame. cbn in Hsame.
    apply returns_bind. eapply returns_read_step; [exact Hstep|].
    apply returns_modify. cbn. eexists. f_equal. congruence.
  - intros k images s1. eapply returns_mono; [|apply train_batch_returns].
    intros ? s2 [H _]. exact H.
Qed.

(** With an empty training loader and [step] not yet bound, the training
    pass raises [NameError] on reading [step] and records no epoch loss. *)
Lemma train_pass_raises (e : Z) s :
  RuntimeSpec rt ->
  ds_data (ld_dataset (train_loader s)) = [] ->
  step s = None ->
  raises (train_pass rt disk e) (NameError "step")
         (fun s' => epoch_losses s' = epoch_losses s /\ val_losses s' = val_losses s) s.
Proof.
  intros Hrt Hempty Hstep. unfold train_pass.
  repeat raise_step.
  cbn [train_loader set_console set_epoch_loss set_autoencoderkl set_unet].
  assert (Hloop : forall s1, step s1 = None ->
            returns (for_enumerate rt disk (train_loader s) 0 (train_batch rt))
                    (fun _ s' => step s' = None /\ epoch_losses s' = epoch_losses s1
                                 /\ val_losses s' = val_losses s1) s1).
  { intros s1 Hs1. unfold for_enumerate, sampler_order. rewrite Hempty. cbn [length].
    apply returns_bind.
    assert (Horder : forall r, (randperm rt 0 r).1 = []).
    { intros r. apply Permutation_nil. symmetry.
      apply (randperm_perm rt Hrt 0 r). }
    destruct (ld_shuffle (train_loader s)).
    - apply returns_draw. rewrite Horder. cbn. apply returns_ret. auto.
    - apply returns_ret. cbn. apply returns_ret. auto. }
  eapply returns_mono; [|apply Hloop; exact Hstep].
  intros ? s1 (Hs1 & He1 & Hv1). cbv beta.
  apply raises_bind_first. exists s1. split.
  - unfold read_step, bind, get. rewrite Hs1. reflexivity.
  - split; [exact He1|exact Hv1].
Qed.

End Passes.

Section ValidationPass.
Context {Tensor Rng : Type} (rt : Runtime Tensor Rng) (disk : Disk Tensor).
Implicit Types (s : state Tensor Rng).

Lemma forward_loss_frame (images : list ndarray) :
  respects (same (fun s => (val_loss s, val_step s, val_losses s, epoch_losses s)))
           (forward_loss rt images).
Proof. repeat frame_step; same_field. Qed.

(** One validation step, written out. *)
Lemma val_batch_unfold (k : Z) (images : list ndarray) s :
  exists loss s1,
    forward_loss rt images (set_val_step (Some k) s) = (Ok loss, s1) /\
    val_batch rt k images s =
      (Ok tt, set_val_loss (val_loss s + tensor_item rt loss)%float s1) /\
    val_step s1 = Some k.
Proof.
  destruct (forward_loss_returns rt images (set_val_step (Some k) s))
    as (loss & s1 & Hf & _).
  pose proof (forward_loss_frame images (set_val_step (Some k) s)) as Hfr.
  rewrite Hf in Hfr. unfold same in Hfr. cbn in Hfr.
  injection Hfr as Hvl Hvs _ _.
  exists loss, s1. split; [exact Hf|]. split; [|exact Hvs].
  unfold val_batch, bind, modify. rewrite Hf. rewrite Hvl. reflexivity.
Qed.

(** The validation loop over batches that all load returns; it has added
    the per-batch losses to [val_loss], left to right, and after at least
    one batch [val_step] is the last counter value. *)
Lemma val_batches_returns (ld : loader) (batches : list (list nat)) (k : Z) s :
  (forall b, In b batches ->
     exists images, fetch (read_image disk) (ld_dataset ld) b = Ok images) ->
  returns (for_batches disk ld k batches (val_batch rt))
    (fun _ s' =>
       val_loss s' = fold_left PrimFloat.add (batch_losses rt disk ld k batches s)
                               (val_loss s) /\
       length (batch_losses rt disk ld k batches s) = length batches /\
       val_step s' = match batches with
                     | [] => val_step s
                     | _ :: _ => Some (k + Z.of_nat (length batches) - 1)
                     end) s.
Proof.
  revert k s. induction batches as [|b batches IH]; intros k s Hfetch.
  - cbn. apply returns_ret. repeat split; congruence.
  - cbn [for_batches batch_losses].
    destruct (Hfetch b) as [images Himages]; [left; reflexivity|].
    rewrite Himages. apply returns_bind, returns_lift.
    destruct (val_batch_unfold k images s) as (loss & s1 & Hf & Hvb & Hvs).
    rewrite Hf, Hvb. cbn [snd].
    apply returns_bind. eexists tt, _. split; [exact Hvb|].
    eapply returns_mono; [|apply IH; intros b0 Hb0; apply Hfetch; right; exact Hb0].
    intros ? s2 (Hloss & Hlen & Hstep). cbv beta. cbn [fold_left length].
    split; [exact Hloss|]. split; [congruence|].
    rewrite Hstep. destruct batches as [|b' batches].
    + cbn. rewrite Hvs. f_equal. lia.
    + f_equal. cbn [length]. lia.
Qed.

End ValidationPass.

Lemma length_chunks_aux {A} (fuel n : nat) (l : list A) :
  (0 < n)%nat -> (length l <= fuel)%nat ->
  length (chunks_aux fuel n l) = ((length l + n - 1) / n)%nat.
Proof.
  intros Hn. revert l. induction fuel as [|fuel IH]; intros l Hl.
  - destruct l; [|cbn in Hl; lia]. cbn. symmetry. apply Nat.div_small. lia.
  - destruct l as [|x l].
    + cbn. symmetry. apply Nat.div_small. lia.
    + cbn [chunks_aux length]. rewrite IH by (rewrite length_drop; cbn in *; lia).
      rewrite length_drop. cbn [length].
      destruct (le_lt_dec n (S (length l))) as [Hge|Hlt].
      * replace (S (length l) + n - 1)%nat with (length l + 1 * n)%nat by lia.
        rewrite Nat.div_add by lia.
        replace (S (length l) - n + n - 1)%nat with (length l) by lia. lia.
      * replace (S (length l) - n + n - 1)%nat with (n - 1)%nat by lia.
        rewrite (Nat.div_small (n - 1) n) by lia.
        apply (Nat.div_unique _ _ _ (length l)); lia.
Qed.

(** The number of batches of a loader is [len(loader)]. *)
Lemma length_chunks_loader (ld : loader) (order : list nat) :
  (0 < ld_batch_size ld)%nat ->
  length order = length (ds_data (ld_dataset ld)) ->
  Z.of_nat (length (chunks (ld_batch_size ld) order)) = loader_len ld.
Proof.
  intros Hb Hlen. unfold chunks, loader_len.
  rewrite length_chunks_aux by lia. rewrite Hlen.
  rewrite Nat2Z.inj_div. f_equal. lia.
Qed.

Section ValidationResult.
Context {Tensor Rng : Type} (rt : Runtime Tensor Rng) (disk : Disk Tensor).
Implicit Types (s : state Tensor Rng).

Lemma validation_frame (e : Z) :
  respects (same validation_view) (validation rt disk e).
Proof. repeat frame_step; unfold validation_view; same_field. Qed.

Lemma no_grad_restores {A} (m : M Tensor Rng A) :
  respects (same (fun s => grad_enabled s)) (no_grad m).
Proof. intros s. unfold no_grad. destruct (m _). reflexivity. Qed.

Lemma validation_restores_grad_mode (e : Z) :
  respects (same (fun s => grad_enabled s)) (validation rt disk e).
Proof.
  unfold validation.
  repeat first [apply no_grad_restores | frame_step]; same_field.
Qed.

End ValidationResult.

Section ValidationReturns.
Context {Tensor Rng : Type} (rt : Runtime Tensor Rng) (disk : Disk Tensor).
Implicit Types (s : state Tensor Rng).

(** With a validation loader that is not empty and loads, the validation
    pass returns; it appends to [val_losses], and prints, the sum of the
    per-batch losses divided by their number, which is [len(val_loader)]. *)
Lemma validation_returns (e : Z) s :
  RuntimeSpec rt ->
  loader_ok (read_image disk) (val_loader s) ->
  returns (validation rt disk e)
    (fun _ s' =>
       let losses := validation_losses rt disk s in
       let mean := (float_sum losses
                    / Py.float_of_int (Z.of_nat (length losses)))%float in
       Z.of_nat (length losses) = loader_len (val_loader s) /\
       0 < loader_len (val_loader s) /\
       val_losses s' = val_losses s ++ [mean] /\
       console s' = console s ++ [PrintValLoss e mean]) s.
Proof.
  intros Hrt (Hne & Hbs & Hload). unfold validation.
  repeat run_step.
  cbn [val_loader set_grad_enabled set_val_loss set_unet].
  unfold validation_losses.
  set (s1 := set_grad_enabled false _).
  unfold for_enumerate.
  assert (Horder : exists order s2,
            sampler_order rt (val_loader s) s1 = (Ok order, s2) /\
            Permutation order (seq 0 (length (ds_data (ld_dataset (val_loader s))))) /\
            val_loss s2 = 0%float /\ val_losses s2 = val_losses s /\
            console s2 = console s).
  { unfold sampler_order. destruct (ld_shuffle (val_loader s)).
    - unfold draw. destruct (randperm rt _ (rng s1)) as [order r] eqn:Hr.
      exists order, (set_rng r s1). split; [reflexivity|]. split; [|auto].
      pose proof (randperm_perm rt Hrt (length (ds_data (ld_dataset (val_loader s))))
                    (rng s1)) as Hp.
      rewrite Hr in Hp. exact Hp.
    - exists (seq 0 (length (ds_data (ld_dataset (val_loader s))))), s1.
      split; [reflexivity|]. split; [reflexivity|auto]. }
  destruct Horder as (order & s2 & Hso & Hperm & Hvl & Hvls & Hcon).
  rewrite Hso. apply returns_bind. eexists order, s2. split; [exact Hso|].
  assert (Hnonempty : order <> []).
  { intros ->. apply Permutation_nil in Hperm.
    destruct (ds_data (ld_dataset (val_loader s))); [congruence|discriminate]. }
  assert (Hcount : Z.of_nat (length (chunks (ld_batch_size (val_loader s)) order))
                   = loader_len (val_loader s)).
  { apply length_chunks_loader; [exact Hbs|].
    rewrite (Permutation_length Hperm). apply length_seq. }
  pose proof (chunks_nonempty (ld_batch_size (val_loader s)) order Hnonempty) as Hc.
  eapply returns_mono;
    [|eapply returns_respects;
      [apply (respects_for_batches disk
                (same (fun s => (val_losses s, console s, grad_enabled s))));
       intros; repeat frame_step; same_field
      |apply val_batches_returns]].
  - intros ? s3 [(Hsum & Hlen & Hstep) Hsame]. cbv beta.
    unfold same in Hsame. cbn in Hsame. injection Hsame as Hvls3 Hcon3 _.
    rewrite Hvl in Hsum.
    destruct (chunks (ld_batch_size (val_loader s)) order) as [|b0 bs] eqn:Hch;
      [congruence|].
    rewrite <- Hch in *.
    apply returns_bind. eapply returns_read_val_step; [exact Hstep|].
    repeat run_step. cbn.
    rewrite Hlen.
    replace (1 + Z.of_nat (length (chunks (ld_batch_size (val_loader s)) order)) - 1)
      with (Z.of_nat (length (chunks (ld_batch_size (val_loader s)) order))) by lia.
    unfold float_sum. rewrite <- Hsum.
    split; [exact Hcount|]. split; [rewrite <- Hcount, Hch; cbn [length]; lia|].
    split; congruence.
  - intros b Hb.
    destruct (fetch_returns (read_image disk) (ld_dataset (val_loader s)) b)
      as (images & Hi & _).
    + intros i Hi.
      pose proof (chunks_incl _ _ _ _ Hb Hi) as Hin.
      apply (Permutation_in _ Hperm), in_seq in Hin. lia.
    + exact Hload.
    + exists images. exact Hi.
Qed.

End ValidationReturns.

Section Epochs.
Context {Tensor Rng : Type} (rt : Runtime Tensor Rng) (disk : Disk Tensor).
Implicit Types (s : state Tensor Rng).

(** With an empty validation loader and [val_step] not yet bound, the
    validation pass raises [NameError] on reading [val_step] and records
    no validation loss. *)
Lemma validation_raises (e : Z) s :
  RuntimeSpec rt ->
  ds_data (ld_dataset (val_loader s)) = [] ->
  val_step s = None ->
  raises (validation rt disk e) (NameError "val_step")
         (fun s' => val_losses s' = val_losses s /\
                    epoch_losses s' = epoch_losses s) s.
Proof.
  intros Hrt Hempty Hstep. unfold validation.
  do 2 raise_step.
  apply raises_bind_later. apply returns_no_grad.
  apply returns_bind. do 3 run_step.
  cbn [val_loader set_grad_enabled set_val_loss set_unet].
  assert (Hloop : forall s1,
            returns (for_enumerate rt disk (val_loader s) 1 (val_batch rt))
                    (fun _ s' => val_step s' = val_step s1 /\
                                 val_losses s' = val_losses s1 /\
                                 epoch_losses s' = epoch_losses s1) s1).
  { intros s1. unfold for_enumerate, sampler_order. rewrite Hempty. cbn [length].
    apply returns_bind.
    assert (Horder : forall r, (randperm rt 0 r).1 = []).
    { intros r. apply Permutation_nil. symmetry.
      apply (randperm_perm rt Hrt 0 r). }
    destruct (ld_shuffle (val_loader s)).
    - apply returns_draw. rewrite Horder. cbn. apply returns_ret. auto.
    - apply returns_ret. cbn. apply returns_ret. auto. }
  eapply returns_mono; [|apply Hloop].
  intros ? s1 (Hs1 & Hv1 & He1). cbv beta. cbn in Hs1, Hv1, He1.
  apply raises_bind_first. eexists. split.
  - unfold read_val_step, bind, get. cbn. rewrite Hs1, Hstep. reflexivity.
  - cbn. split; assumption.
Qed.

Lemma maybe_checkpoint_frame (e : Z) :
  respects (same (fun s => (train_loader s, val_loader s, validated_epochs s,
                            epoch_losses s, val_losses s, val_step s)))
           (maybe_checkpoint disk e).
Proof. repeat frame_step; same_view. Qed.

Lemma maybe_checkpoint_returns (e : Z) s :
  ((e + 1) mod 10 = 0 -> can_write disk (checkpoint_path e) = true) ->
  returns (maybe_checkpoint disk e)
    (fun _ s' => saved_paths s' =
       saved_paths s ++ (if (e + 1) mod 10 =? 0 then [checkpoint_path e] else [])) s.
Proof.
  intros Hw. unfold maybe_checkpoint.
  destruct ((e + 1) mod 10 =? 0) eqn:E.
  - unfold torch_save_unet. run_step. run_step. cbv beta.
    rewrite Hw by (apply Z.eqb_eq; exact E).
    run_step. unfold saved_paths. cbn. rewrite fmap_app. reflexivity.
  - run_step. rewrite app_nil_r. reflexivity.
Qed.

Lemma maybe_validate_returns (e : Z) s :
  RuntimeSpec rt ->
  ((e + 1) mod val_interval = 0 -> loader_ok (read_image disk) (val_loader s)) ->
  returns (maybe_validate rt disk e)
    (fun _ s' =>
       train_loader s' = train_loader s /\ val_loader s' = val_loader s /\
       saved_paths s' = saved_paths s /\
       epoch_losses s' = epoch_losses s /\
       validated_epochs s' =
         validated_epochs s ++ (if (e + 1) mod val_interval =? 0 then [e] else []) /\
       length (val_losses s') =
         (length (val_losses s) + if ((e + 1) mod val_interval =? 0)%Z then 1 else 0)%nat /\
       ((e + 1) mod val_interval <> 0 ->
        val_step s' = val_step s /\ val_losses s' = val_losses s)) s.
Proof.
  intros Hrt Hok. unfold maybe_validate.
  destruct ((e + 1) mod val_interval =? 0) eqn:E.
  - apply Z.eqb_eq in E.
    eapply returns_mono;
      [|eapply returns_respects;
        [apply validation_frame|apply validation_returns; [exact Hrt|auto]]].
    intros ? s' [(_ & _ & Hvl & Hcon) Hsame]. cbv beta in *.
    unfold same, validation_view in Hsame.
    injection Hsame as _ _ _ _ _ _ _ Htl Hvld _ Hsaved Hel _ _.
    repeat split; try assumption.
    + unfold saved_paths. congruence.
    + unfold validated_epochs. rewrite Hcon, omap_app. reflexivity.
    + rewrite Hvl, length_app. reflexivity.
    + congruence.
    + congruence.
  - apply Z.eqb_neq in E. run_step.
    rewrite app_nil_r, Nat.add_0_r. repeat split; reflexivity.
Qed.

(** An epoch whose loaders are not empty and load, and whose checkpoint
    can be written when one is due, returns with [epoch_effect]. *)
Lemma epoch_body_returns (e : Z) s :
  RuntimeSpec rt ->
  loader_ok (read_image disk) (train_loader s) ->
  ((e + 1) mod val_interval = 0 -> loader_ok (read_image disk) (val_loader s)) ->
  ((e + 1) mod 10 = 0 -> can_write disk (checkpoint_path e) = true) ->
  returns (epoch_body rt disk e) (fun _ s' => epoch_effect e s s') s.
Proof.
  intros Hrt Htrain Hval Hwrite. unfold epoch_body.
  apply returns_bind.
  eapply returns_mono;
    [|eapply returns_respects;
      [apply train_pass_frame|apply train_pass_returns; assumption]].
  intros ? s1 [[x Hx] Hsame1]. cbv beta in *.
  unfold same, train_pass_view in Hsame1.
  injection Hsame1 as _ Htl1 Hvl1 _ Hsv1 Hve1 Hvs1 Hvls1.
  apply returns_bind.
  eapply returns_mono;
    [|eapply returns_respects;
      [apply maybe_checkpoint_frame|apply maybe_checkpoint_returns; assumption]].
  intros ? s2 [Hsaved2 Hsame2]. cbv beta in *.
  unfold same in Hsame2.
  injection Hsame2 as Htl2 Hvl2 Hve2 Hel2 Hvls2 Hvs2.
  eapply returns_mono;
    [|apply maybe_validate_returns;
      [exact Hrt|intros E; rewrite Hvl2, Hvl1; auto]].
  intros ? s3 (Htl3 & Hvl3 & Hsv3 & Hel3 & Hve3 & Hlen3 & Hno3). cbv beta.
  unfold epoch_effect. repeat split.
  - congruence.
  - congruence.
  - rewrite Hsv3, Hsaved2. unfold saved_paths. rewrite Hsv1. reflexivity.
  - rewrite Hve3, Hve2, Hve1. reflexivity.
  - rewrite Hel3, Hel2, Hx, length_app. cbn. lia.
  - rewrite Hlen3, Hvls2, Hvls1. reflexivity.
  - destruct (Hno3 H) as [Ha Hb]. congruence.
  - destruct (Hno3 H) as [Ha Hb]. congruence.
Qed.

End Epochs.

Section Schedule.
Context {Tensor Rng : Type} (rt : Runtime Tensor Rng) (disk : Disk Tensor).
Implicit Types (s : state Tensor Rng).

Lemma for_epochs_returns (epochs : list Z) s :
  RuntimeSpec rt ->
  loader_ok (read_image disk) (train_loader s) ->
  (List.filter validation_due epochs <> [] ->
   loader_ok (read_image disk) (val_loader s)) ->
  (forall e, In e epochs -> checkpoint_due e = true ->
             can_write disk (checkpoint_path e) = true) ->
  returns (for_epochs rt disk epochs) (fun _ s' => epochs_effect epochs s s') s.
Proof.
  intros Hrt. revert s.
  induction epochs as [|e epochs IH]; intros s Htrain Hval Hwrite.
  - cbn [for_epochs]. apply returns_ret. unfold epochs_effect. cbn.
    rewrite !app_nil_r, !Nat.add_0_r. repeat split; reflexivity.
  - cbn [for_epochs]. apply returns_bind.
    eapply returns_mono; [|apply epoch_body_returns].
    + intros ? s1 (Htl & Hvl & Hsv & Hve & Hel & Hvls & Hno). cbv beta.
      eapply returns_mono; [|apply IH].
      * intros ? s2 (Htl2 & Hvl2 & Hsv2 & Hve2 & Hel2 & Hvls2 & Hno2). cbv beta.
        unfold epochs_effect. cbn [List.filter length].
        fold (checkpoint_due e) in Hsv. fold (validation_due e) in Hve, Hvls.
        repeat split.
        -- congruence.
        -- congruence.
        -- rewrite Hsv2, Hsv, <- app_assoc. f_equal.
           destruct (checkpoint_due e); reflexivity.
        -- rewrite Hve2, Hve, <- app_assoc. f_equal.
           destruct (validation_due e); reflexivity.
        -- lia.
        -- rewrite Hvls2, Hvls. destruct (validation_due e); cbn [length]; lia.
        -- destruct (validation_due e) eqn:E; [discriminate|].
           apply Z.eqb_neq in E. destruct (Hno E) as [Ha _].
           destruct (Hno2 H) as [Hb _]. congruence.
        -- destruct (validation_due e) eqn:E; [discriminate|].
           apply Z.eqb_neq in E. destruct (Hno E) as [_ Ha].
           destruct (Hno2 H) as [_ Hb]. congruence.
      * rewrite Htl. exact Htrain.
      * intros Hne. rewrite Hvl. apply Hval. cbn [List.filter].
        destruct (validation_due e); [discriminate|exact Hne].
      * intros e' He' Hd. apply Hwrite; [right; exact He'|exact Hd].
    + exact Hrt.
    + exact Htrain.
    + intros E. apply Hval. cbn [List.filter]. unfold validation_due.
      rewrite (proj2 (Z.eqb_eq _ _) E). discriminate.
    + intros E. apply Hwrite; [left; reflexivity|].
      unfold checkpoint_due. apply Z.eqb_eq. exact E.
Qed.

Lemma for_epochs_app (l1 l2 : list Z) s :
  for_epochs rt disk (l1 ++ l2) s =
  bind (for_epochs rt disk l1) (fun _ => for_epochs rt disk l2) s.
Proof.
  revert s. induction l1 as [|e l1 IH]; intros s; cbn [for_epochs app].
  - reflexivity.
  - unfold bind in *. destruct (epoch_body rt disk e s) as [[[]|ex] s1].
    + rewrite IH. reflexivity.
    + reflexivity.
Qed.

End Schedule.

(** ** The schedule of checkpoints and validations *)

Lemma list_ascii_of_string_app (s1 s2 : string) :
  list_ascii_of_string (s1 +:+ s2) =
  list_ascii_of_string s1 ++ list_ascii_of_string s2.
Proof.
  induction s1 as [|c s1 IH]; [reflexivity|].
  change (String c s1 +:+ s2) with (String c (s1 +:+ s2)).
  cbn [list_ascii_of_string app]. f_equal. exact IH.
Qed.

Lemma string_app_inj_r (s1 s2 t : string) : s1 +:+ t = s2 +:+ t -> s1 = s2.
Proof.
  intros H. apply (f_equal list_ascii_of_string) in H.
  rewrite !list_ascii_of_string_app in H. apply app_inv_tail in H.
  rewrite <- (string_of_list_ascii_of_string s1),
          <- (string_of_list_ascii_of_string s2).
  congruence.
Qed.

(** Different epochs have different checkpoint paths. *)
Lemma checkpoint_path_inj (e e' : Z) :
  checkpoint_path e = checkpoint_path e' -> e = e'.
Proof.
  unfold checkpoint_path. intros H.
  apply (inj (String.app _)) in H. apply (inj (String.app _)) in H.
  apply string_app_inj_r in H. apply (inj pretty) in H. lia.
Qed.

Lemma in_range (n : nat) (e : Z) : In e (range n) <-> 0 <= e < Z.of_nat n.
Proof.
  unfold range. rewrite in_map_iff. split.
  - intros (i & <- & Hi). apply in_seq in Hi. lia.
  - intros He. exists (Z.to_nat e). split; [lia|]. apply in_seq. lia.
Qed.

Section ScheduleTheorem.
Context {Tensor Rng : Type} (rt : Runtime Tensor Rng) (disk : Disk Tensor).
Implicit Types (s : state Tensor Rng).

(** C3.  From the state set-up leaves (nothing saved or printed yet), with
    loaders that are not empty and load and a disk that accepts the
    checkpoints, the 200-epoch loop returns; the checkpoints written are
    exactly those of the epochs with [(epoch+1) % 10 == 0] and the
    validation lines printed are exactly those of the epochs with
    [(epoch+1) % 5 == 0], each once and in order. *)
Theorem checkpoint_and_validation_schedule (s0 : state Tensor Rng) :
  RuntimeSpec rt ->
  loader_ok (read_image disk) (train_loader s0) ->
  loader_ok (read_image disk) (val_loader s0) ->
  (forall e, can_write disk (checkpoint_path e) = true) ->
  saved s0 = [] ->
  console s0 = [] ->
  returns (training_loop rt disk)
    (fun _ s' =>
       saved_paths s' =
         map checkpoint_path (List.filter checkpoint_due (range n_epochs)) /\
       validated_epochs s' = List.filter validation_due (range n_epochs) /\
       forall e, 0 <= e < Z.of_nat n_epochs ->
         (In (checkpoint_path e) (saved_paths s') <-> (e + 1) mod 10 = 0) /\
         (In e (validated_epochs s') <-> (e + 1) mod 5 = 0)) s0.
Proof.
  intros Hrt Htrain Hval Hwrite Hsaved Hconsole. unfold training_loop.
  apply returns_bind.
  eapply returns_mono; [|apply for_epochs_returns; auto].
  intros ? s1 (_ & _ & Hsv & Hve & _). cbv beta.
  apply returns_emit.
  assert (Hs0 : saved_paths s0 = [])
    by (unfold saved_paths; rewrite Hsaved; reflexivity).
  assert (Hv0 : validated_epochs s0 = [])
    by (unfold validated_epochs; rewrite Hconsole; reflexivity).
  rewrite Hs0, app_nil_l in Hsv. rewrite Hv0, app_nil_l in Hve.
  assert (Hsv' : saved_paths (set_console (console s1 ++ [BarClose]) s1)
                 = map checkpoint_path (List.filter checkpoint_due (range n_epochs)))
    by exact Hsv.
  assert (Hve' : validated_epochs (set_console (console s1 ++ [BarClose]) s1)
                 = List.filter validation_due (range n_epochs)).
  { rewrite validated_epochs_emit, app_nil_r. exact Hve. }
  split; [exact Hsv'|]. split; [exact Hve'|].
  intros e He. rewrite Hsv', Hve'. split.
  - rewrite in_map_iff. split.
    + intros (e' & Heq & Hin). apply checkpoint_path_inj in Heq. subst e'.
      apply filter_In in Hin as [_ Hdue]. apply Z.eqb_eq. exact Hdue.
    + intros Hdue. exists e. split; [reflexivity|].
      apply filter_In. split; [apply in_range; exact He|].
      apply Z.eqb_eq. exact Hdue.
  - rewrite filter_In, in_range. unfold validation_due, val_interval.
    rewrite Z.eqb_eq. tauto.
Qed.

End ScheduleTheorem.

Section ValidationTheorem.
Context {Tensor Rng : Type} (rt : Runtime Tensor Rng) (disk : Disk Tensor).
Implicit Types (s : state Tensor Rng).

(** C8.  A validation pass over a validation loader that is not empty and
    loads returns with the parameter store, hence the U-net's parameters,
    the optimizer, the gradients and the loss scaler exactly as before,
    and with the autograd mode it was entered with; the value it appends
    to [val_losses] and prints is the sum of the per-batch losses, computed
    with autograd off, divided by their number, the number of validation
    batches. *)
Theorem validation_updates_no_parameter (e : Z) (s : state Tensor Rng) :
  RuntimeSpec rt ->
  loader_ok (read_image disk) (val_loader s) ->
  returns (validation rt disk e)
    (fun _ s' =>
       heap s' = heap s /\
       state_dict (heap s') (unet s') = state_dict (heap s) (unet s) /\
       optimizer s' = optimizer s /\
       grads s' = grads s /\
       scaler s' = scaler s /\
       grad_enabled s' = grad_enabled s /\
       let losses := validation_losses rt disk s in
       let mean := (float_sum losses
                    / Py.float_of_int (Z.of_nat (length losses)))%float in
       Z.of_nat (length losses) = loader_len (val_loader s) /\
       0 < loader_len (val_loader s) /\
       val_losses s' = val_losses s ++ [mean] /\
       console s' = console s ++ [PrintValLoss e mean]) s.
Proof.
  intros Hrt Hok.
  eapply returns_mono;
    [|eapply returns_respects;
      [apply validation_restores_grad_mode
      |eapply returns_respects;
       [apply validation_frame|apply validation_returns; assumption]]].
  intros ? s' [[Hres Hframe] Hmode]. cbv beta in *.
  unfold same, validation_view in Hframe, Hmode.
  injection Hframe as Hheap Hgrads Hopt Hsc Hparams _ _ _ _ _ _ _ _ _.
  repeat split; try assumption; try apply Hres.
  unfold state_dict. rewrite Hheap, Hparams. reflexivity.
Qed.

End ValidationTheorem.

Section EmptyLoaders.
Context {Tensor Rng : Type} (rt : Runtime Tensor Rng) (disk : Disk Tensor).
Implicit Types (s : state Tensor Rng).

Lemma raises_for_epochs_app (l1 l2 : list Z) e Q s :
  returns (for_epochs rt disk l1)
          (fun _ s1 => raises (for_epochs rt disk l2) e Q s1) s ->
  raises (for_epochs rt disk (l1 ++ l2)) e Q s.
Proof.
  intros (a & s1 & H1 & s' & H2 & HQ). exists s'. split; [|exact HQ].
  rewrite for_epochs_app. rewrite (bind_ok _ _ _ _ _ H1). exact H2.
Qed.

(** C9.  Started with [step] and [val_step] unbound, as set-up leaves
    them: if the training loader has no batch, the loop raises [NameError]
    for [step] in the first epoch and has recorded no loss; if only the
    validation loader has none, it raises [NameError] for [val_step] in the
    first validation pass and has recorded no validation loss; if both
    loaders have a batch (and load, and the checkpoints can be written),
    the loop returns with 200 epoch losses and 40 validation losses
    recorded. *)
Theorem averaging_needs_a_batch (s0 : state Tensor Rng) :
  RuntimeSpec rt ->
  step s0 = None ->
  val_step s0 = None ->
  (ds_data (ld_dataset (train_loader s0)) = [] ->
   raises (training_loop rt disk) (NameError "step")
          (fun s' => epoch_losses s' = epoch_losses s0 /\
                     val_losses s' = val_losses s0) s0) /\
  (loader_ok (read_image disk) (train_loader s0) ->
   ds_data (ld_dataset (val_loader s0)) = [] ->
   raises (training_loop rt disk) (NameError "val_step")
          (fun s' => val_losses s' = val_losses s0) s0) /\
  (loader_ok (read_image disk) (train_loader s0) ->
   loader_ok (read_image disk) (val_loader s0) ->
   (forall e, can_write disk (checkpoint_path e) = true) ->
   returns (training_loop rt disk)
           (fun _ s' =>
              length (epoch_losses s') = (length (epoch_losses s0) + 200)%nat /\
              length (val_losses s') = (length (val_losses s0) + 40)%nat) s0).
Proof.
  intros Hrt Hstep Hvstep. unfold training_loop. repeat split.
  - intros Hempty. apply raises_bind_first.
    change (range n_epochs) with (0 :: map Z.of_nat (seq 1 199)).
    cbn [for_epochs]. apply raises_bind_first.
    unfold epoch_body. apply raises_bind_first.
    apply train_pass_raises; assumption.
  - intros Htrain Hempty. apply raises_bind_first.
    change (range n_epochs) with ([0; 1; 2; 3] ++ 4 :: map Z.of_nat (seq 5 195)).
    apply raises_for_epochs_app.
    eapply returns_mono; [|apply for_epochs_returns].
    + intros ? s1 (Htl & Hvl & _ & _ & _ & _ & Hno). cbv beta.
      destruct (Hno eq_refl) as [Hvs1 Hvls1].
      cbn [for_epochs]. apply raises_bind_first.
      unfold epoch_body. apply raises_bind_later.
      eapply returns_mono;
        [|eapply returns_respects;
          [apply train_pass_frame
          |apply train_pass_returns; [exact Hrt|rewrite Htl; exact Htrain]]].
      intros ? s2 [_ Hsame2]. cbv beta.
      unfold same, train_pass_view in Hsame2.
      injection Hsame2 as _ _ Hvl2 _ _ _ Hvs2 Hvls2.
      apply raises_bind_later.
      eapply returns_mono;
        [|eapply returns_respects;
          [apply maybe_checkpoint_frame
          |apply maybe_checkpoint_returns; intros E; discriminate E]].
      intros ? s3 [_ Hsame3]. cbv beta.
      unfold same in Hsame3. injection Hsame3 as _ Hvl3 _ _ Hvls3 Hvs3.
      unfold maybe_validate. change ((4 + 1) mod val_interval =? 0) with true.
      cbv iota.
      eapply raises_mono; [|apply validation_raises].
      * intros s' [Hv _]. congruence.
      * exact Hrt.
      * congruence.
      * congruence.
    + exact Hrt.
    + exact Htrain.
    + intros Hne. exfalso. apply Hne. reflexivity.
    + intros e He Hdue. exfalso.
      cbn in He. destruct He as [<-|[<-|[<-|[<-|[]]]]]; discriminate Hdue.
  - intros Htrain Hval Hwrite. apply returns_bind.
    eapply returns_mono; [|apply for_epochs_returns; auto].
    intros ? s1 (_ & _ & _ & _ & Hel & Hvls & _). cbv beta.
    apply returns_emit. cbn [epoch_losses val_losses set_console].
    rewrite Hel, Hvls. split; f_equal.
Qed.

End EmptyLoaders.

(** ** The autoencoder is frozen *)

Section Frozen.
Context {Tensor Rng : Type} (rt : Runtime Tensor Rng) (disk : Disk Tensor).
Implicit Types (s : state Tensor Rng) (h : gmap positive Tensor).

#[local] Instance untouched_preorder :
  PreOrder (@untouched_outside_optimizer Tensor Rng).
Proof.
  split.
  - intros s. unfold untouched_outside_optimizer. auto.
  - intros s1 s2 s3 (Hg1 & Ha1 & Hu1 & Hh1) (Hg2 & Ha2 & Hu2 & Hh2).
    unfold untouched_outside_optimizer. repeat split; try congruence.
    intros p Hp. rewrite Hh2 by (rewrite Hg1; exact Hp). apply Hh1. exact Hp.
Qed.

Lemma adam_fold_frame (rate : float) (g : gmap positive Tensor)
    (ps : list positive) acc (p : positive) :
  ~ In p ps ->
  (foldr (adam_step_one rt rate g) acc ps).1 !! p = acc.1 !! p.
Proof.
  induction ps as [|q ps IH]; intros Hp; cbn [foldr]; [reflexivity|].
  assert (Hq : q <> p) by (intros ->; apply Hp; left; reflexivity).
  assert (Hps : ~ In p ps) by (intros H; apply Hp; right; exact H).
  specialize (IH Hps).
  unfold adam_step_one at 1.
  destruct (g !! q); [|exact IH].
  destruct ((foldr (adam_step_one rt rate g) acc ps).1 !! q); [|exact IH].
  destruct (adam_update rt rate _ _ _) as [w' slot']. cbn [fst].
  rewrite lookup_insert_ne by exact Hq. exact IH.
Qed.

Lemma optimizer_step_untouched s :
  untouched_outside_optimizer s (optimizer_step rt s).
Proof.
  unfold untouched_outside_optimizer, optimizer_step.
  destruct (foldr _ _ _) as [h' slots'] eqn:Hfold. cbn.
  repeat split. intros p Hp.
  pose proof (adam_fold_frame (lr (optimizer s)) (grads s)
                (param_group (optimizer s)) (heap s, adam_slots (optimizer s))
                p Hp) as H.
  rewrite Hfold in H. exact H.
Qed.

Lemma scaler_step_untouched s :
  untouched_outside_optimizer s (scaler_step rt s).
Proof.
  unfold scaler_step.
  set (s1 := set_scaler _ _).
  assert (H1 : untouched_outside_optimizer s s1)
    by (unfold untouched_outside_optimizer; cbn; auto).
  destruct (negb _); [exact H1|].
  etrans; [exact H1|apply optimizer_step_untouched].
Qed.

(** Closes a goal saying that one state update touches no tensor outside
    the optimizer's group. *)
Ltac untouched :=
  first
    [ apply scaler_step_untouched
    | unfold untouched_outside_optimizer, zero_grad, scaled_backward,
        scaler_update;
      repeat case_match; cbn; auto ].

Lemma training_loop_untouched :
  respects untouched_outside_optimizer (training_loop rt disk).
Proof. repeat frame_step; untouched. Qed.

Lemma for_epochs_untouched (epochs : list Z) :
  respects untouched_outside_optimizer (for_epochs rt disk epochs).
Proof. repeat frame_step; untouched. Qed.

Lemma train_batch_untouched (k : Z) (images : list ndarray) :
  respects untouched_outside_optimizer (train_batch rt k images).
Proof. repeat frame_step; untouched. Qed.

(** If the autoencoder's parameters are outside the optimizer's group,
    its state dictionary is the same in [s'] as in [s]. *)
Lemma untouched_autoencoder s s' :
  (forall p, In p (parameters (autoencoderkl s)) ->
             ~ In p (param_group (optimizer s))) ->
  untouched_outside_optimizer s s' ->
  state_dict (heap s') (autoencoderkl s') = state_dict (heap s) (autoencoderkl s).
Proof.
  intros Hdisj (_ & Hae & _ & Hheap). unfold state_dict. rewrite Hae.
  assert (Hall : forall p, In p (parameters (autoencoderkl s)) ->
                           heap s' !! p = heap s !! p)
    by (intros p Hp; apply Hheap, Hdisj, Hp).
  clear Hdisj Hheap Hae.
  induction (parameters (autoencoderkl s)) as [|p ps IH]; [reflexivity|].
  cbn [omap list_omap].
  rewrite Hall by (left; reflexivity).
  rewrite IH by (intros q Hq; apply Hall; right; exact Hq).
  reflexivity.
Qed.

End Frozen.

Lemma omap_ext_in {A B} (f g : A -> option B) (l : list A) :
  (forall x, In x l -> f x = g x) -> omap f l = omap g l.
Proof.
  induction l as [|x l IH]; intros H; [reflexivity|]. cbn [omap list_omap].
  rewrite (H x) by (left; reflexivity).
  rewrite IH by (intros y Hy; apply H; right; exact Hy). reflexivity.
Qed.

Section Allocation.
Context {Tensor : Type}.
Implicit Types (h : gmap positive Tensor) (ts : list Tensor).

Lemma alloc_length (next : positive) ts : length (alloc next ts) = length ts.
Proof.
  revert next. induction ts as [|t ts IH]; intros next; cbn; [reflexivity|].
  rewrite IH. reflexivity.
Qed.

Lemma alloc_ids_bounds (next : positive) ts (p : positive) :
  In p (alloc next ts).*1 ->
  (Pos.to_nat next <= Pos.to_nat p < Pos.to_nat next + length ts)%nat.
Proof.
  revert next. induction ts as [|t ts IH]; intros next; cbn; [contradiction|].
  intros [<-|Hin]; [lia|]. apply IH in Hin. lia.
Qed.

Lemma alloc_ids_NoDup (next : positive) ts : NoDup (alloc next ts).*1.
Proof.
  revert next. induction ts as [|t ts IH]; intros next; cbn.
  - constructor.
  - constructor; [|apply IH].
    intros Hin%list_elem_of_In%alloc_ids_bounds. lia.
Qed.

Lemma store_lookup_notin (ps : list (positive * Tensor)) h (p : positive) :
  ~ In p ps.*1 -> store ps h !! p = h !! p.
Proof.
  induction ps as [|[q t] ps IH]; intros Hp; cbn; [reflexivity|].
  rewrite lookup_insert_ne by (intros ->; apply Hp; left; reflexivity).
  apply IH. intros H. apply Hp. right. exact H.
Qed.

Lemma state_dict_store_zip (ids : list positive) ts h :
  NoDup ids -> length ids = length ts ->
  omap (fun p => (fun t => (p, t)) <$> store (zip ids ts) h !! p) ids = zip ids ts.
Proof.
  intros Hnd. revert ts. induction Hnd as [|p ids Hp Hnd IH]; intros ts Hlen.
  - reflexivity.
  - destruct ts as [|t ts]; [discriminate|]. cbn [zip zip_with store foldr].
    cbn [omap list_omap]. rewrite lookup_insert_eq. cbn.
    f_equal. etrans; [|apply (IH ts); cbn in Hlen; congruence].
    apply omap_ext_in. intros q Hq. f_equal.
    apply lookup_insert_ne. intros ->. apply Hp, list_elem_of_In, Hq.
Qed.

End Allocation.

Section SetupFacts.
Context {Tensor Rng : Type} (rt : Runtime Tensor Rng) (disk : Disk Tensor).

(** What set-up establishes of the two networks and the optimizer: the
    optimizer's group is the U-net's parameter list, no autoencoder
    parameter is in it, and the autoencoder's tensors are those of the
    loaded checkpoint. *)
Lemma setup_networks (sp : split) (r0 : Rng) (s0 : state Tensor Rng) :
  setup_from_split rt disk sp r0 = Ok s0 ->
  param_group (optimizer s0) = parameters (unet s0) /\
  (forall p, In p (parameters (autoencoderkl s0)) ->
             ~ In p (param_group (optimizer s0))) /\
  exists checkpoint,
    torch_load disk trained_vae_weights = Some checkpoint /\
    state_dict (heap s0) (autoencoderkl s0) =
      zip (parameters (autoencoderkl s0)) checkpoint /\
    length checkpoint = length (parameters (autoencoderkl s0)).
Proof.
  unfold setup_from_split.
  destruct (autoencoder_init rt r0) as [ae_init r1].
  destruct (torch_load disk trained_vae_weights) as [checkpoint|]; [|discriminate].
  destruct (negb _) eqn:Hlen; [discriminate|].
  apply negb_false_iff, Nat.eqb_eq in Hlen.
  destruct (unet_init rt r1) as [un_init r2].
  destruct (randperm rt _ r2) as [order r3].
  destruct (chunks batch_size order) as [|b rest]; [discriminate|].
  destruct (fetch _ _ b) as [images|]; [|discriminate].
  destruct (ae_sampling rt _ _ r3) as [z0 r4].
  intros [= <-]. cbn.
  set (ae_params := alloc 1 ae_init) in *.
  set (un_params := alloc (Pos.of_succ_nat (length ae_params)) un_init).
  split; [reflexivity|]. split.
  - intros p Hae Hun.
    apply alloc_ids_bounds in Hae, Hun.
    rewrite SuccNat2Pos.id_succ in Hun. subst ae_params.
    rewrite alloc_length in Hun. lia.
  - exists checkpoint. split; [reflexivity|]. split.
    + unfold state_dict. cbn [parameters].
      etrans;
        [|apply (state_dict_store_zip ae_params.*1 checkpoint (store ae_params ∅));
          [apply alloc_ids_NoDup|rewrite length_fmap; symmetry; exact Hlen]].
      apply omap_ext_in. intros p Hp. f_equal. apply store_lookup_notin.
      intros Hun. apply alloc_ids_bounds in Hp, Hun.
      rewrite SuccNat2Pos.id_succ in Hun. subst ae_params.
      rewrite alloc_length in Hun. lia.
    + rewrite length_fmap. exact Hlen.
Qed.


End SetupFacts.

Section FrozenTheorem.
Context {Tensor Rng : Type} (rt : Runtime Tensor Rng) (disk : Disk Tensor).

(** C4.  After set-up the optimizer's parameter group is exactly the
    U-net's parameter list and contains no parameter of the autoencoder.
    Whatever epochs are then run, to completion or to an exception, the
    group is still the U-net's parameter list and the autoencoder's
    tensors are still those of the checkpoint loaded at start-up; and a
    training step taken in any state with these networks and this
    optimizer leaves the autoencoder's tensors as they are. *)
Theorem autoencoder_never_updated (sp : split) (r0 : Rng) (s0 : state Tensor Rng) :
  setup_from_split rt disk sp r0 = Ok s0 ->
  param_group (optimizer s0) = parameters (unet s0) /\
  (forall p, In p (parameters (autoencoderkl s0)) ->
             ~ In p (param_group (optimizer s0))) /\
  (exists checkpoint,
     torch_load disk trained_vae_weights = Some checkpoint /\
     forall (epochs : list Z) (s' : state Tensor Rng),
       s' = (for_epochs rt disk epochs s0).2 \/ s' = (training_loop rt disk s0).2 ->
       param_group (optimizer s') = parameters (unet s') /\
       state_dict (heap s') (autoencoderkl s') =
         zip (parameters (autoencoderkl s0)) checkpoint) /\
  (forall (s : state Tensor Rng) (k : Z) (images : list ndarray),
     param_group (optimizer s) = param_group (optimizer s0) ->
     parameters (autoencoderkl s) = parameters (autoencoderkl s0) ->
     let s' := (train_batch rt k images s).2 in
     state_dict (heap s') (autoencoderkl s') = state_dict (heap s) (autoencoderkl s)).
Proof.
  intros Hsetup.
  destruct (setup_networks rt disk sp r0 s0 Hsetup)
    as (Hgroup & Hdisj & checkpoint & Hload & Hdict & _).
  split; [exact Hgroup|]. split; [exact Hdisj|]. split.
  - exists checkpoint. split; [exact Hload|].
    intros epochs s' Hs'.
    assert (Hun : untouched_outside_optimizer s0 s').
    { destruct Hs' as [-> | ->].
      - apply for_epochs_untouched.
      - apply training_loop_untouched. }
    split.
    + destruct Hun as (Hg & _ & Hu & _). congruence.
    + rewrite (untouched_autoencoder s0 s' Hdisj Hun). exact Hdict.
  - intros s k images Hg Hae s'.
    apply untouched_autoencoder; [|apply train_batch_untouched].
    intros p Hp. rewrite Hg. apply Hdisj. rewrite <- Hae. exact Hp.
Qed.

End FrozenTheorem.

(** ** The test split is not consumed *)

Section Oblivious.
Context {Tensor Rng : Type}.
Implicit Types (s : state Tensor Rng).

Lemma ignores_ret {A} (a : A) :
  ignores_test_loader (ret a : M Tensor Rng A).
Proof. intros ld s. reflexivity. Qed.

Lemma ignores_raise {A} (e : exn) :
  ignores_test_loader (raise e : M Tensor Rng A).
Proof. intros ld s. reflexivity. Qed.

Lemma ignores_lift {A} (o : outcome A) :
  ignores_test_loader (lift o : M Tensor Rng A).
Proof. intros ld s. reflexivity. Qed.

Lemma ignores_modify (f : state Tensor Rng -> state Tensor Rng) :
  (forall ld s, f (set_test_loader ld s) = set_test_loader ld (f s)) ->
  ignores_test_loader (modify f).
Proof. intros H ld s. unfold modify. rewrite H. reflexivity. Qed.

Lemma ignores_draw {A} (f : Rng -> A * Rng) :
  ignores_test_loader (draw f : M Tensor Rng A).
Proof. intros ld s. unfold draw. cbn. destruct (f (rng s)). reflexivity. Qed.

Lemma ignores_bind {A B} (m : M Tensor Rng A) (k : A -> M Tensor Rng B) :
  ignores_test_loader m -> (forall a, ignores_test_loader (k a)) ->
  ignores_test_loader (bind m k).
Proof.
  intros Hm Hk ld s. unfold bind. rewrite Hm.
  destruct (m s) as [[a|e] s1]; cbn [fst snd].
  - rewrite Hk. reflexivity.
  - reflexivity.
Qed.

(** Reading the state and continuing with a computation that does not
    look at [test_loader]. *)
Lemma ignores_bind_get {B} (k : state Tensor Rng -> M Tensor Rng B) :
  (forall ld s0 s, k (set_test_loader ld s0) s = k s0 s) ->
  (forall s0, ignores_test_loader (k s0)) ->
  ignores_test_loader (bind get k).
Proof.
  intros Hsame Hk ld s. unfold bind, get. rewrite Hsame. apply Hk.
Qed.

Lemma ignores_no_grad {A} (m : M Tensor Rng A) :
  ignores_test_loader m -> ignores_test_loader (no_grad m).
Proof.
  intros Hm ld s. unfold no_grad.
  change (set_grad_enabled false (set_test_loader ld s))
    with (set_test_loader ld (set_grad_enabled false s)).
  rewrite Hm. destruct (m (set_grad_enabled false s)) as [o s1]. reflexivity.
Qed.

End Oblivious.

Section ObliviousScript.
Context {Tensor Rng : Type} (rt : Runtime Tensor Rng) (disk : Disk Tensor).

Lemma ignores_for_batches ld0 k batches body :
  (forall k images, ignores_test_loader (body k images)) ->
  ignores_test_loader (for_batches (Rng := Rng) disk ld0 k batches body).
Proof.
  intros Hbody. revert k.
  induction batches as [|b batches IH]; intros k; cbn [for_batches].
  - apply ignores_ret.
  - apply ignores_bind; [apply ignores_lift|]. intros images.
    apply ignores_bind; [apply Hbody|]. intros _. apply IH.
Qed.

Lemma ignores_for_enumerate ld0 start body :
  (forall k images, ignores_test_loader (body k images)) ->
  ignores_test_loader (for_enumerate rt disk ld0 start body).
Proof.
  intros Hbody. unfold for_enumerate, sampler_order.
  apply ignores_bind.
  - destruct (ld_shuffle ld0); [apply ignores_draw|apply ignores_ret].
  - intros order. apply ignores_for_batches. exact Hbody.
Qed.

Lemma ignores_for_epochs epochs :
  (forall e, ignores_test_loader (epoch_body rt disk e)) ->
  ignores_test_loader (for_epochs rt disk epochs).
Proof.
  intros Hbody. induction epochs as [|e epochs IH]; cbn [for_epochs].
  - apply ignores_ret.
  - apply ignores_bind; [apply Hbody|]. intros _. exact IH.
Qed.

End ObliviousScript.

(** Reduces a goal saying that a piece of the script ignores the test
    loader to goals on its state updates. *)
Ltac ignore_step :=
  lazymatch goal with
  | |- ignores_test_loader (bind get _) =>
      apply ignores_bind_get; [intros ? ? ?; reflexivity|intros ?]
  | |- ignores_test_loader (bind _ _) => apply ignores_bind; [|intros ?]
  | |- ignores_test_loader (ret _) => apply ignores_ret
  | |- ignores_test_loader (raise _) => apply ignores_raise
  | |- ignores_test_loader (lift _) => apply ignores_lift
  | |- ignores_test_loader (modify _) => apply ignores_modify; intros ? ?
  | |- ignores_test_loader (draw _) => apply ignores_draw
  | |- ignores_test_loader (emit _) => unfold emit; apply ignores_modify; intros ? ?
  | |- ignores_test_loader (no_grad _) => apply ignores_no_grad
  | |- ignores_test_loader (for_enumerate _ _ _ _ _) =>
      apply ignores_for_enumerate; intros ? ?
  | |- ignores_test_loader (for_epochs _ _ _) =>
      apply ignores_for_epochs; intros ?
  | |- ignores_test_loader (match ?x with _ => _ end) => destruct x
  | |- ignores_test_loader ?m => let h := head_of m in unfold h
  end.

(** Closes a goal saying that one state update commutes with a change of
    [test_loader]. *)
Ltac commutes_with_test_loader :=
  unfold zero_grad, scaled_backward, scaler_step, scaler_update, optimizer_step;
  cbn; repeat case_match; reflexivity.

Section TestSplit.
Context {Tensor Rng : Type} (rt : Runtime Tensor Rng) (disk : Disk Tensor).

Lemma training_loop_ignores_test_loader :
  ignores_test_loader (training_loop rt disk).
Proof. repeat ignore_step; commutes_with_test_loader. Qed.

End TestSplit.

Section TestSplitTheorem.
Context {Tensor Rng : Type} (rt : Runtime Tensor Rng) (disk : Disk Tensor).

(** Set-up reads the test list only to build [test_loader]. *)
Lemma setup_with_other_test_list (tr va te te' : list datum) (r0 : Rng) :
  setup_from_split rt disk (Split tr va te') r0 =
  match setup_from_split rt disk (Split tr va te) r0 with
  | Ok s0 =>
      Ok (set_test_loader
            (DataLoader (test_ds (Split tr va te')) batch_size true) s0)
  | Raise e => Raise e
  end.
Proof.
  unfold setup_from_split, train_ds, val_ds, test_ds.
  cbn [train_datalist val_datalist test_datalist].
  destruct (autoencoder_init rt r0) as [ae_init r1].
  destruct (torch_load disk trained_vae_weights) as [checkpoint|]; [|reflexivity].
  destruct (negb _); [reflexivity|].
  destruct (unet_init rt r1) as [un_init r2].
  destruct (randperm rt _ r2) as [order r3].
  destruct (chunks batch_size order) as [|b rest]; [reflexivity|].
  destruct (fetch _ _ b) as [images|]; [|reflexivity].
  destruct (ae_sampling rt _ _ r3) as [z0 r4].
  reflexivity.
Qed.

(** C10.  Two runs of the script that differ only in the test list end
    the same way and show the same epoch losses, validation losses,
    checkpoints and console output: the test dataset and loader are built
    and never read. *)
Theorem test_split_not_consumed (tr va te te' : list datum) (r0 : Rng) :
  observable (script_from_split rt disk (Split tr va te) r0) =
  observable (script_from_split rt disk (Split tr va te') r0).
Proof.
  unfold script_from_split.
  rewrite (setup_with_other_test_list tr va te te').
  destruct (setup_from_split rt disk (Split tr va te) r0) as [s0|e];
    [|reflexivity].
  rewrite training_loop_ignores_test_loader.
  destruct (training_loop rt disk s0) as [o s1]. reflexivity.
Qed.

End TestSplitTheorem.

(** ** Runs that end early *)

Section EarlyEnd.
Context {Tensor Rng : Type} (rt : Runtime Tensor Rng) (disk : Disk Tensor).
Implicit Types (s : state Tensor Rng).

(** With an empty training list set-up itself raises (at the latest
    where [first(train_loader)] yields [None], line 134): the loop is
    never entered with a training loader that has no batch. *)
Lemma setup_raises_without_training_data (sp : split) (r0 : Rng) :
  RuntimeSpec rt ->
  train_datalist sp = [] ->
  exists e, setup_from_split rt disk sp r0 = Raise e.
Proof.
  intros Hrt Hempty. unfold setup_from_split.
  destruct (autoencoder_init rt r0) as [ae_init r1].
  destruct (torch_load disk trained_vae_weights) as [checkpoint|]; [|eauto].
  destruct (negb _); [eauto|].
  destruct (unet_init rt r1) as [un_init r2].
  rewrite Hempty. cbn [length].
  pose proof (randperm_perm rt Hrt 0 r2) as Hperm.
  destruct (randperm rt 0 r2) as [order r3]. cbn in Hperm.
  symmetry in Hperm. apply Permutation_nil in Hperm. subst order.
  cbn. eauto.
Qed.

#[local] Instance on_schedule_preorder : PreOrder (@on_schedule Tensor Rng).
Proof.
  split.
  - intros s. exists [], []. rewrite !app_nil_r. repeat split; constructor.
  - intros s1 s2 s3 (sv1 & ln1 & Hs1 & Hl1 & Hf1 & Hg1)
                    (sv2 & ln2 & Hs2 & Hl2 & Hf2 & Hg2).
    exists (sv1 ++ sv2), (ln1 ++ ln2).
    rewrite Hs2, Hs1, Hl2, Hl1, map_app, <- !app_assoc.
    repeat split; apply Forall_app; auto.
Qed.

Lemma same_outputs_on_schedule s s' :
  same (fun s => (saved s, validated_epochs s)) s s' -> on_schedule s s'.
Proof.
  unfold same. intros [= Hs Hv]. exists [], []. unfold saved_paths.
  rewrite Hs, Hv, !app_nil_r. repeat split; constructor.
Qed.

Lemma respects_same_outputs {A} (m : M Tensor Rng A) :
  respects (same (fun s => (saved s, validated_epochs s))) m ->
  respects on_schedule m.
Proof. intros H s. apply same_outputs_on_schedule, H. Qed.

(** Whatever its outcome, an epoch writes a checkpoint only if one is due
    and prints a validation line only if a validation is due. *)
Lemma epoch_body_on_schedule (e : Z) : respects on_schedule (epoch_body rt disk e).
Proof.
  unfold epoch_body.
  apply respects_bind; [tc_solve| |intros _; apply respects_bind; [tc_solve| |intros _]].
  - apply respects_same_outputs. repeat frame_step; same_view.
  - unfold maybe_checkpoint. destruct ((e + 1) mod 10 =? 0) eqn:Hdue.
    + unfold torch_save_unet. intros s. unfold bind, get.
      destruct (can_write disk (checkpoint_path e)); cbn.
      * exists [e], []. unfold saved_paths. cbn. rewrite fmap_app, app_nil_r.
        repeat split; repeat constructor. exact Hdue.
      * reflexivity.
    + apply respects_ret. tc_solve.
  - unfold maybe_validate. destruct ((e + 1) mod val_interval =? 0) eqn:Hdue.
    + unfold validation.
      repeat (apply respects_bind; [tc_solve| |intros ?]);
        try (apply respects_same_outputs; repeat frame_step; same_view).
      intros s. exists [], [e]. unfold emit, modify. cbn [snd].
      rewrite validated_epochs_emit. unfold saved_paths. cbn.
      rewrite app_nil_r.
      repeat split; repeat constructor. exact Hdue.
    + apply respects_ret. tc_solve.
Qed.

(** X7.  Whatever the outcome of the loop, also when it stops on an
    exception, every checkpoint it has written belongs to an epoch with
    [(epoch+1) % 10 == 0] and every validation line it has printed to an
    epoch with [(epoch+1) % 5 == 0]. *)
Lemma training_loop_on_schedule : respects on_schedule (training_loop rt disk).
Proof.
  unfold training_loop. apply respects_bind; [tc_solve| |intros _].
  - apply respects_for_epochs; [tc_solve|]. apply epoch_body_on_schedule.
  - apply respects_same_outputs. repeat frame_step; same_view.
Qed.

End EarlyEnd.

(** ** The properties on a concrete run *)

Lemma toy_runtime_spec : RuntimeSpec Toy.rt.
Proof.
  split.
  - intros n r. cbn. symmetry. apply Permutation_rev.
  - intros lo hi n r. cbn. rewrite length_map, length_seq. reflexivity.
  - intros lo hi n r t Hlt Hin. cbn in Hin.
    apply in_map_iff in Hin as (i & <- & _).
    pose proof (Z.mod_pos_bound (r + Z.of_nat i) (hi - lo)). lia.
  - intros g w imgs r. cbn.
    rewrite length_zip_with, !length_map. lia.
Defined.

Lemma toy_setup : setup_from_split Toy.rt (Toy.disk 40) Toy.split40 0 = Ok Toy.start.
Proof. vm_compute. reflexivity. Defined.

Lemma toy_loader_ok (data : list datum) :
  data <> [] ->
  loader_ok (read_image (Toy.disk 40))
            (DataLoader (Dataset data train_transforms) batch_size true).
Proof.
  intros Hne. split; [exact Hne|]. split; [apply Nat.lt_0_succ|].
  intros d _. eexists. reflexivity.
Defined.

Lemma toy_train_loader_ok :
  loader_ok (read_image (Toy.disk 40)) (train_loader Toy.start).
Proof.
  replace (train_loader Toy.start)
    with (DataLoader (Dataset (train_datalist Toy.split40) train_transforms)
                     batch_size true)
    by (vm_compute; reflexivity).
  apply toy_loader_ok. vm_compute. discriminate.
Defined.

Lemma toy_val_loader_ok :
  loader_ok (read_image (Toy.disk 40)) (val_loader Toy.start).
Proof.
  replace (val_loader Toy.start)
    with (DataLoader (Dataset (val_datalist Toy.split40) train_transforms)
                     batch_size true)
    by (vm_compute; reflexivity).
  apply toy_loader_ok. vm_compute. discriminate.
Defined.

Lemma checkpoint_and_validation_schedule_witness :
  saved Toy.start = [] /\ console Toy.start = [] /\
  returns (training_loop Toy.rt (Toy.disk 40))
    (fun _ s' =>
       saved_paths s' =
         map checkpoint_path (List.filter checkpoint_due (range n_epochs)) /\
       validated_epochs s' = List.filter validation_due (range n_epochs) /\
       forall e, 0 <= e < Z.of_nat n_epochs ->
         (In (checkpoint_path e) (saved_paths s') <-> (e + 1) mod 10 = 0) /\
         (In e (validated_epochs s') <-> (e + 1) mod 5 = 0)) Toy.start.
Proof.
  split; [vm_compute; reflexivity|]. split; [vm_compute; reflexivity|].
  apply (checkpoint_and_validation_schedule Toy.rt (Toy.disk 40) Toy.start).
  - exact toy_runtime_spec.
  - exact toy_train_loader_ok.
  - exact toy_val_loader_ok.
  - intros e. reflexivity.
  - vm_compute. reflexivity.
  - vm_compute. reflexivity.
Defined.

Lemma autoencoder_never_updated_witness :
  setup_from_split Toy.rt (Toy.disk 40) Toy.split40 0 = Ok Toy.start /\
  param_group (optimizer Toy.start) = parameters (unet Toy.start) /\
  forall (epochs : list Z),
    state_dict (heap (for_epochs Toy.rt (Toy.disk 40) epochs Toy.start).2)
               (autoencoderkl (for_epochs Toy.rt (Toy.disk 40) epochs Toy.start).2)
    = [(1%positive, [7]); (2%positive, [8])].
Proof.
  split; [exact toy_setup|].
  destruct (autoencoder_never_updated Toy.rt (Toy.disk 40) Toy.split40 0 Toy.start
              toy_setup) as (Hgroup & _ & (checkpoint & Hload & Hrun) & _).
  split; [exact Hgroup|].
  intros epochs.
  destruct (Hrun epochs _ (or_introl eq_refl)) as [_ Hdict].
  rewrite Hdict. injection Hload as <-. reflexivity.
Defined.

Lemma scale_factor_computed_once_witness :
  setup_from_split Toy.rt (Toy.disk 40) Toy.split40 0 = Ok Toy.start /\
  inf_scale_factor (inferer Toy.start)
    = tensor_rdiv Toy.rt 1 (tensor_std Toy.rt (z Toy.start)) /\
  inferer (training_loop Toy.rt (Toy.disk 40) Toy.start).2 = inferer Toy.start.
Proof.
  split; [exact toy_setup|].
  destruct (scale_factor_computed_once Toy.rt (Toy.disk 40) Toy.split40 0 Toy.start
              toy_setup) as (Hsf & _ & _ & Hloop).
  split; [exact Hsf|exact Hloop].
Defined.


Lemma validation_updates_no_parameter_witness :
  RuntimeSpec Toy.rt /\
  loader_ok (read_image (Toy.disk 40)) (val_loader Toy.start) /\
  returns (validation Toy.rt (Toy.disk 40) 4)
    (fun _ s' =>
       heap s' = heap Toy.start /\
       optimizer s' = optimizer Toy.start /\
       val_losses s' = [475.625%float]) Toy.start.
Proof.
  split; [exact toy_runtime_spec|]. split; [exact toy_val_loader_ok|].
  eapply returns_mono;
    [|apply (validation_updates_no_parameter Toy.rt (Toy.disk 40) 4 Toy.start
               toy_runtime_spec toy_val_loader_ok)].
  intros ? s' (Hheap & _ & Hopt & _ & _ & _ & _ & _ & Hvl & _).
  split; [exact Hheap|]. split; [exact Hopt|].
  rewrite Hvl. vm_compute. reflexivity.
Defined.

Lemma averaging_needs_a_batch_witness :
  raises (training_loop Toy.rt (Toy.disk 40)) (NameError "step")
         (fun s' => epoch_losses s' = [] /\ val_losses s' = [])
         Toy.without_training_data /\
  raises (training_loop Toy.rt (Toy.disk 40)) (NameError "val_step")
         (fun s' => val_losses s' = [])
         Toy.without_validation_data /\
  returns (training_loop Toy.rt (Toy.disk 40))
          (fun _ s' => length (epoch_losses s') = 200%nat /\
                       length (val_losses s') = 40%nat)
          Toy.start.
Proof.
  split; [|split].
  - apply (averaging_needs_a_batch Toy.rt (Toy.disk 40) Toy.without_training_data
             toy_runtime_spec eq_refl eq_refl).
    reflexivity.
  - apply (averaging_needs_a_batch Toy.rt (Toy.disk 40) Toy.without_validation_data
             toy_runtime_spec eq_refl eq_refl).
    + exact toy_train_loader_ok.
    + reflexivity.
  - assert (Hstep : step Toy.start = None) by (vm_compute; reflexivity).
    assert (Hvstep : val_step Toy.start = None) by (vm_compute; reflexivity).
    assert (Hel : epoch_losses Toy.start = []) by (vm_compute; reflexivity).
    assert (Hvl : val_losses Toy.start = []) by (vm_compute; reflexivity).
    eapply returns_mono;
      [|apply (averaging_needs_a_batch Toy.rt (Toy.disk 40) Toy.start
                 toy_runtime_spec Hstep Hvstep);
        [exact toy_train_loader_ok|exact toy_val_loader_ok|intros e; reflexivity]].
    intros ? s' [H1 H2]. rewrite Hel in H1. rewrite Hvl in H2.
    split; assumption.
Defined.

(** * Further properties *)

(** ** The data list (line 41) *)

Lemma numbered_files_NoDup (n : nat) : NoDup (numbered_files n).
Proof. unfold numbered_files. apply (NoDup_fmap_2 _), NoDup_seq. Qed.

Lemma geomodels_dataset_take (listing : list string) :
  geomodels_dataset listing =
  map (fun img => Datum (imgs_dir +:+ img)) (take 4000 listing).
Proof.
  unfold geomodels_dataset. rewrite slice_prefix by lia.
  change (Z.to_nat 4000) with 4000%nat. symmetry. apply fmap_take.
Qed.

Lemma geomodels_dataset_NoDup (listing : list string) :
  NoDup listing -> NoDup (geomodels_dataset listing).
Proof.
  intros Hnd. rewrite geomodels_dataset_take.
  apply NoDup_fmap_2_strong.
  - intros x y _ _ [= H]. apply (inj (String.app _)) in H. exact H.
  - eapply sublist_NoDup; [exact Hnd|apply sublist_take].
Qed.

(** X1.  The data list holds one entry per listed name, in listing order
    and at most the first 4000 of them, each with the path [./imgs/]
    followed by the name; distinct names give distinct entries. *)
Theorem dataset_is_capped_listing (listing : list string) :
  NoDup listing ->
  geomodels_dataset listing =
    map (fun img => Datum (imgs_dir +:+ img)) (take 4000 listing) /\
  length (geomodels_dataset listing) = Nat.min (length listing) 4000 /\
  NoDup (geomodels_dataset listing).
Proof.
  intros Hnd. split; [apply geomodels_dataset_take|]. split.
  - rewrite geomodels_dataset_take, length_map, length_take. apply Nat.min_comm.
  - apply geomodels_dataset_NoDup. exact Hnd.
Qed.

Lemma dataset_is_capped_listing_witness :
  NoDup (numbered_files 3) /\
  geomodels_dataset (numbered_files 3) =
    [Datum "./imgs/0"; Datum "./imgs/1"; Datum "./imgs/2"].
Proof.
  split; [apply numbered_files_NoDup|].
  destruct (dataset_is_capped_listing (numbered_files 3) (numbered_files_NoDup 3))
    as [Heq _].
  rewrite Heq. reflexivity.
Defined.

(** ** The split on concrete lists *)

Lemma toy_split40 :
  split_dataset (geomodels_dataset (numbered_files 40)) = Some Toy.split40.
Proof. vm_compute. reflexivity. Defined.

Lemma split_train_val_disjoint_witness :
  NoDup (geomodels_dataset (numbered_files 40)) /\
  split_dataset (geomodels_dataset (numbered_files 40)) = Some Toy.split40 /\
  forall x, In x (train_datalist Toy.split40) ->
            In x (val_datalist Toy.split40) -> False.
Proof.
  split; [apply geomodels_dataset_NoDup, numbered_files_NoDup|].
  split; [exact toy_split40|].
  apply (split_train_val_disjoint (geomodels_dataset (numbered_files 40)) Toy.split40).
  - apply geomodels_dataset_NoDup, numbered_files_NoDup.
  - exact toy_split40.
Defined.

Lemma split_covers_witness :
  exists sp k,
    split_dataset (replicate 40 (Datum "a")) = Some sp /\ (k <= 1)%nat /\
    train_datalist sp ++ val_datalist sp ++ drop k (test_datalist sp)
    = replicate 40 (Datum "a").
Proof.
  apply (split_covers (replicate 40 (Datum "a"))).
  rewrite length_replicate. lia.
Defined.

Lemma split_exact_at_cap_witness :
  exists sp,
    split_dataset (replicate 4000 (Datum "a")) = Some sp /\
    train_datalist sp ++ val_datalist sp ++ test_datalist sp
    = replicate 4000 (Datum "a") /\
    length (train_datalist sp) = 2800%nat /\
    length (val_datalist sp) = 800%nat /\
    length (test_datalist sp) = 400%nat.
Proof.
  apply (split_exact_at_cap (replicate 4000 (Datum "a"))).
  apply length_replicate.
Defined.

Lemma split_short_listing_witness :
  exists sp,
    split_dataset [Datum "a"; Datum "b"] = Some sp /\
    test_datalist sp = [Datum "a"; Datum "b"].
Proof.
  apply (split_short_listing [Datum "a"; Datum "b"]). cbn. lia.
Defined.

(** ** What a batch holds (lines 58-92) *)





(** ** What a run never undoes *)

Section Histories.
Context {Tensor Rng : Type} (rt : Runtime Tensor Rng) (disk : Disk Tensor).
Implicit Types (s : state Tensor Rng).

#[local] Instance histories_extended_preorder :
  PreOrder (@histories_extended Tensor Rng).
Proof.
  split.
  - intros s. unfold histories_extended. repeat split; reflexivity.
  - intros s1 s2 s3 (H1 & H2 & H3 & H4) (K1 & K2 & K3 & K4).
    unfold histories_extended. repeat split; etrans; eassumption.
Qed.

Lemma torch_save_unet_extends (path : string) :
  respects histories_extended (torch_save_unet (Rng := Rng) disk path).
Proof.
  intros s. unfold torch_save_unet, bind, get.
  destruct (can_write disk path); cbn; [|reflexivity].
  unfold histories_extended. cbn.
  repeat split; first [reflexivity | apply prefix_app_r; reflexivity].
Qed.

(** X12.  Whatever the outcome of the loop, the epoch losses, validation
    losses, saved checkpoints and console lines present before are all
    still there, unchanged and in place: the loop only appends. *)
Theorem histories_are_append_only :
  respects histories_extended (training_loop rt disk).
Proof.
  repeat first [apply torch_save_unet_extends | frame_step];
    unfold histories_extended, zero_grad, scaled_backward, scaler_step,
      scaler_update, optimizer_step;
    repeat case_match; cbn;
    repeat split; first [reflexivity | apply prefix_app_r; reflexivity].
Qed.

(** X11.  Whatever the outcome of a validation pass, also when a batch
    fails to load or [val_step] is unbound, it leaves the parameter store,
    the optimizer, the gradients, the loss scaler and the autograd mode as
    it found them, and so the state dictionaries of both networks. *)
Theorem validation_never_updates (e : Z) (s : state Tensor Rng) :
  let s' := (validation rt disk e s).2 in
  heap s' = heap s /\
  optimizer s' = optimizer s /\
  grads s' = grads s /\
  scaler s' = scaler s /\
  grad_enabled s' = grad_enabled s /\
  state_dict (heap s') (unet s') = state_dict (heap s) (unet s) /\
  state_dict (heap s') (autoencoderkl s') = state_dict (heap s) (autoencoderkl s).
Proof.
  intros s'.
  pose proof (validation_frame rt disk e s) as Hframe.
  pose proof (validation_restores_grad_mode rt disk e s) as Hmode.
  fold s' in Hframe, Hmode. unfold same, validation_view in Hframe, Hmode.
  injection Hframe as Hheap Hgrads Hopt Hsc Hparams Hae _ _ _ _ _ _ _ _.
  repeat split; try assumption.
  - unfold state_dict. rewrite Hheap, Hparams. reflexivity.
  - rewrite Hheap, Hae. reflexivity.
Qed.

End Histories.

(** ** The epoch loss and the progress bar (lines 158-181) *)

Section EpochLoss.
Context {Tensor Rng : Type} (rt : Runtime Tensor Rng) (disk : Disk Tensor).
Implicit Types (s : state Tensor Rng).

Lemma forward_loss_keeps_epoch_loss (images : list ndarray) :
  respects (same (fun s => (epoch_loss s, step s, epoch_losses s, console s)))
           (forward_loss rt images).
Proof. repeat frame_step; same_field. Qed.

(** One training step, written out. *)
Lemma train_batch_unfold (k : Z) (images : list ndarray) s :
  exists loss s1 s',
    forward_loss rt images (zero_grad (set_step (Some k) s)) = (Ok loss, s1) /\
    train_batch rt k images s = (Ok tt, s') /\
    epoch_loss s' = (epoch_loss s + tensor_item rt loss)%float /\
    step s' = Some k /\
    epoch_losses s' = epoch_losses s /\
    console s' =
      console s ++ [BarPostfix ((epoch_loss s + tensor_item rt loss)
                                / Py.float_of_int (k + 1))%float].
Proof.
  destruct (forward_loss_returns rt images (zero_grad (set_step (Some k) s)))
    as (loss & s1 & Hf & _).
  pose proof (forward_loss_keeps_epoch_loss images (zero_grad (set_step (Some k) s)))
    as Hfr.
  rewrite Hf in Hfr. unfold same in Hfr. cbn in Hfr.
  injection Hfr as Hel Hst Hels Hco.
  exists loss, s1.
  assert (Hrun : returns (train_batch rt k images)
            (fun _ s' => epoch_loss s' = (epoch_loss s + tensor_item rt loss)%float /\
                         step s' = Some k /\ epoch_losses s' = epoch_losses s /\
                         console s' =
                           console s ++ [BarPostfix ((epoch_loss s + tensor_item rt loss)
                                                     / Py.float_of_int (k + 1))%float]) s).
  { unfold train_batch.
    apply returns_bind, returns_modify.
    apply returns_bind, returns_modify.
    apply returns_bind. exists loss, s1. split; [exact Hf|].
    repeat (apply returns_bind, returns_modify).
    apply returns_bind.
    eapply (returns_read_step _ _ k); [same_field_with Hst|].
    repeat run_step.
    match goal with
    | |- epoch_loss (set_console (console ?sf ++ _) _) = _ /\ _ =>
        assert (H1 : epoch_loss sf
                     = (epoch_loss s1 + tensor_item rt loss)%float) by same_field;
        assert (H2 : step sf = step s1) by same_field;
        assert (H3 : epoch_losses sf = epoch_losses s1) by same_field;
        assert (H4 : console sf = console s1) by same_field
    end.
    cbn [epoch_loss step epoch_losses console set_console].
    rewrite H1, H2, H3, H4, Hel, Hst, Hels, Hco. repeat split; reflexivity. }
  destruct Hrun as ([] & s' & Hrun & H1 & H2 & H3 & H4).
  exists s'. auto 6.
Qed.

(** The training loop over batches that all load returns; it has added
    the per-batch losses to [epoch_loss], left to right, shown the
    running mean after each batch, and after at least one batch [step]
    is the last counter value. *)
Lemma train_batches_returns (ld : loader) (batches : list (list nat)) (k : Z) s :
  (forall b, In b batches ->
     exists images, fetch (read_image disk) (ld_dataset ld) b = Ok images) ->
  returns (for_batches disk ld k batches (train_batch rt))
    (fun _ s' =>
       epoch_loss s' = fold_left PrimFloat.add
                         (train_batch_losses rt disk ld k batches s) (epoch_loss s) /\
       length (train_batch_losses rt disk ld k batches s) = length batches /\
       epoch_losses s' = epoch_losses s /\
       console s' =
         console s ++ map BarPostfix
           (running_means (epoch_loss s) k (train_batch_losses rt disk ld k batches s)) /\
       step s' = match batches with
                 | [] => step s
                 | _ :: _ => Some (k + Z.of_nat (length batches) - 1)
                 end) s.
Proof.
  revert k s. induction batches as [|b batches IH]; intros k s Hfetch.
  - cbn. apply returns_ret. rewrite app_nil_r. repeat split; congruence.
  - cbn [for_batches train_batch_losses].
    destruct (Hfetch b) as [images Himages]; [left; reflexivity|].
    rewrite Himages. apply returns_bind, returns_lift.
    destruct (train_batch_unfold k images s)
      as (loss & s1 & s' & Hf & Htb & Hel & Hst & Hels & Hco).
    rewrite Hf, Htb. cbn [snd].
    apply returns_bind. exists tt, s'. split; [exact Htb|].
    eapply returns_mono; [|apply IH; intros b0 Hb0; apply Hfetch; right; exact Hb0].
    intros ? s2 (Hloss & Hlen & Hels2 & Hco2 & Hstep). cbv beta.
    cbn [fold_left length running_means map].
    rewrite <- Hel. split; [exact Hloss|]. split; [congruence|].
    split; [congruence|].
    split; [rewrite Hco2, Hco, <- Hel, <- app_assoc; reflexivity|].
    rewrite Hstep. destruct batches as [|b' batches].
    + rewrite Hst. f_equal. cbn. lia.
    + f_equal. cbn [length]. lia.
Qed.

(** The training pass of an epoch, written out. *)
Lemma train_pass_unfold (e : Z) (s : state Tensor Rng) :
  RuntimeSpec rt ->
  loader_ok (read_image disk) (train_loader s) ->
  returns (train_pass rt disk e)
    (fun _ s' =>
       let losses := training_losses rt disk e s in
       let mean := (float_sum losses
                    / Py.float_of_int (Z.of_nat (length losses)))%float in
       Z.of_nat (length losses) = loader_len (train_loader s) /\
       0 < loader_len (train_loader s) /\
       epoch_losses s' = epoch_losses s ++ [mean] /\
       step s' = Some (loader_len (train_loader s) - 1) /\
       console s' =
         console s ++ BarOpen (loader_len (train_loader s)) :: BarDescription e ::
                      map BarPostfix (running_means 0 0 losses)) s.
Proof.
  intros Hrt (Hne & Hbs & Hload). unfold train_pass.
  repeat run_step.
  change (set_console _ _) with (train_pass_start e s).
  cbn [train_loader set_console set_epoch_loss set_autoencoderkl set_unet].
  unfold training_losses.
  set (s1 := train_pass_start e s).
  unfold for_enumerate.
  assert (Horder : exists order s2,
            sampler_order rt (train_loader s) s1 = (Ok order, s2) /\
            Permutation order (seq 0 (length (ds_data (ld_dataset (train_loader s))))) /\
            epoch_loss s2 = 0%float /\ epoch_losses s2 = epoch_losses s /\
            console s2 =
              console s ++ [BarOpen (loader_len (train_loader s)); BarDescription e]).
  { assert (Hco1 : console s1 =
              console s ++ [BarOpen (loader_len (train_loader s)); BarDescription e])
      by (subst s1; unfold train_pass_start; cbn; rewrite <- app_assoc; reflexivity).
    unfold sampler_order. destruct (ld_shuffle (train_loader s)).
    - unfold draw. destruct (randperm rt _ (rng s1)) as [order r] eqn:Hr.
      exists order, (set_rng r s1). split; [reflexivity|]. split; [|auto].
      pose proof (randperm_perm rt Hrt
                    (length (ds_data (ld_dataset (train_loader s)))) (rng s1)) as Hp.
      rewrite Hr in Hp. exact Hp.
    - exists (seq 0 (length (ds_data (ld_dataset (train_loader s))))), s1.
      split; [reflexivity|]. split; [reflexivity|auto]. }
  destruct Horder as (order & s2 & Hso & Hperm & Hel & Hels & Hco).
  rewrite Hso. apply returns_bind. exists order, s2. split; [exact Hso|].
  assert (Hnonempty : order <> []).
  { intros ->. apply Permutation_nil in Hperm.
    destruct (ds_data (ld_dataset (train_loader s))); [congruence|discriminate]. }
  assert (Hcount : Z.of_nat (length (chunks (ld_batch_size (train_loader s)) order))
                   = loader_len (train_loader s)).
  { apply length_chunks_loader; [exact Hbs|].
    rewrite (Permutation_length Hperm). apply length_seq. }
  pose proof (chunks_nonempty (ld_batch_size (train_loader s)) order Hnonempty) as Hc.
  eapply returns_mono; [|apply train_batches_returns].
  - intros ? s3 (Hsum & Hlen & Hels3 & Hco3 & Hstep). cbv beta.
    rewrite Hel in Hsum, Hco3.
    destruct (chunks (ld_batch_size (train_loader s)) order) as [|b0 bs] eqn:Hch;
      [congruence|].
    rewrite <- Hch in *.
    apply returns_bind. eapply returns_read_step; [exact Hstep|].
    apply returns_modify. cbn.
    rewrite Hlen.
    replace (0 + Z.of_nat (length (chunks (ld_batch_size (train_loader s)) order)) - 1 + 1)
      with (Z.of_nat (length (chunks (ld_batch_size (train_loader s)) order))) by lia.
    unfold float_sum. rewrite <- Hsum.
    split; [exact Hcount|]. split; [rewrite <- Hcount, Hch; cbn [length]; lia|].
    split; [congruence|].
    split; [rewrite Hstep, <- Hcount; f_equal; lia|].
    rewrite Hco3, Hco, <- app_assoc. reflexivity.
  - intros b Hb.
    destruct (fetch_returns (read_image disk) (ld_dataset (train_loader s)) b)
      as (images & Hi & _).
    + intros i Hi.
      pose proof (chunks_incl _ _ _ _ Hb Hi) as Hin.
      apply (Permutation_in _ Hperm), in_seq in Hin. lia.
    + exact Hload.
    + exists images. exact Hi.
Qed.

(** X10.  With a training loader that is not empty and loads, the training
    pass of an epoch returns; the value it appends to [epoch_losses] is the
    sum of that epoch's per-batch losses, added left to right from zero,
    divided by their number, which is [len(train_loader)], the total the
    progress bar was opened with; [step] ends as that number minus one. *)
Theorem epoch_loss_is_batch_mean (e : Z) (s : state Tensor Rng) :
  RuntimeSpec rt ->
  loader_ok (read_image disk) (train_loader s) ->
  returns (train_pass rt disk e)
    (fun _ s' =>
       let losses := training_losses rt disk e s in
       let mean := (float_sum losses
                    / Py.float_of_int (Z.of_nat (length losses)))%float in
       Z.of_nat (length losses) = loader_len (train_loader s) /\
       0 < loader_len (train_loader s) /\
       epoch_losses s' = epoch_losses s ++ [mean] /\
       step s' = Some (loader_len (train_loader s) - 1)) s.
Proof.
  intros Hrt Hok.
  eapply returns_mono; [|apply train_pass_unfold; assumption].
  intros ? s' (H1 & H2 & H3 & H4 & _). auto.
Qed.

(** X16.  What the training pass of an epoch shows on the console: the bar
    is opened with [len(train_loader)] as its total and described with the
    epoch number; then after each batch the postfix shows the mean of the
    losses of the epoch's batches so far. *)
Theorem progress_bar_shows_running_mean (e : Z) (s : state Tensor Rng) :
  RuntimeSpec rt ->
  loader_ok (read_image disk) (train_loader s) ->
  returns (train_pass rt disk e)
    (fun _ s' =>
       console s' =
         console s ++ BarOpen (loader_len (train_loader s)) :: BarDescription e ::
                      map BarPostfix
                        (running_means 0 0 (training_losses rt disk e s))) s.
Proof.
  intros Hrt Hok.
  eapply returns_mono; [|apply train_pass_unfold; assumption].
  intros ? s' (_ & _ & _ & _ & H). exact H.
Qed.

End EpochLoss.

Lemma epoch_loss_is_batch_mean_witness :
  RuntimeSpec Toy.rt /\
  loader_ok (read_image (Toy.disk 40)) (train_loader Toy.start) /\
  returns (train_pass Toy.rt (Toy.disk 40) 0)
    (fun _ s' =>
       length (training_losses Toy.rt (Toy.disk 40) 0 Toy.start) = 2%nat /\
       length (epoch_losses s') = 1%nat /\
       step s' = Some 1) Toy.start.
Proof.
  split; [exact toy_runtime_spec|]. split; [exact toy_train_loader_ok|].
  eapply returns_mono;
    [|apply (epoch_loss_is_batch_mean Toy.rt (Toy.disk 40) 0 Toy.start
               toy_runtime_spec toy_train_loader_ok)].
  intros ? s' (Hn & _ & Hels & Hstep).
  assert (Hlen : loader_len (train_loader Toy.start) = 2) by (vm_compute; reflexivity).
  assert (Hel0 : epoch_losses Toy.start = []) by (vm_compute; reflexivity).
  rewrite Hlen in Hn, Hstep. rewrite Hel0 in Hels.
  split; [lia|]. split; [rewrite Hels; reflexivity|exact Hstep].
Defined.

Lemma progress_bar_shows_running_mean_witness :
  returns (train_pass Toy.rt (Toy.disk 40) 0)
    (fun _ s' => exists m1 m2,
       console s' = [BarOpen 2; BarDescription 0; BarPostfix m1; BarPostfix m2])
    Toy.start.
Proof.
  eapply returns_mono;
    [|apply (progress_bar_shows_running_mean Toy.rt (Toy.disk 40) 0 Toy.start
               toy_runtime_spec toy_train_loader_ok)].
  intros ? s' Hs'. cbv beta in Hs'.
  assert (Hco0 : console Toy.start = []) by (vm_compute; reflexivity).
  assert (Hlen : loader_len (train_loader Toy.start) = 2) by (vm_compute; reflexivity).
  rewrite Hco0, Hlen in Hs'. rewrite Hs'.
  do 2 eexists. vm_compute. reflexivity.
Defined.

(** ** Checkpoints (lines 182-183) *)

Section Checkpoints.
Context {Tensor Rng : Type} (rt : Runtime Tensor Rng) (disk : Disk Tensor).
Implicit Types (s : state Tensor Rng).

Lemma range_split (n N : nat) :
  (n < N)%nat ->
  range N = range n ++ Z.of_nat n :: drop (S n) (range N).
Proof.
  intros Hn. unfold range.
  assert (Hmid : (Z.of_nat <$> seq 0 N) !! n = Some (Z.of_nat n)).
  { rewrite list_lookup_fmap, lookup_seq_lt by exact Hn. reflexivity. }
  assert (Htake : take n (Z.of_nat <$> seq 0 N) = Z.of_nat <$> seq 0 n).
  { rewrite <- fmap_take, take_seq. do 2 f_equal. lia. }
  etrans; [symmetry; apply (take_drop_middle _ n (Z.of_nat n)); exact Hmid|].
  f_equal. exact Htake.
Qed.

Lemma ten_is_two_fives (e : Z) : (e + 1) mod 10 = 0 -> (e + 1) mod val_interval = 0.
Proof.
  intros H. unfold val_interval.
  pose proof (Z.div_mod (e + 1) 10 ltac:(lia)) as Hd. rewrite H in Hd.
  rewrite Hd. replace (10 * ((e + 1) / 10) + 0) with (2 * ((e + 1) / 10) * 5) by lia.
  apply Z_mod_mult.
Qed.

(** Writing a checkpoint that can be written appends the entry for the
    U-net's present weights. *)
Lemma maybe_checkpoint_saves (e : Z) s :
  (e + 1) mod 10 = 0 ->
  can_write disk (checkpoint_path e) = true ->
  maybe_checkpoint disk e s =
  (Ok tt, set_saved (saved s ++ [(checkpoint_path e, state_dict (heap s) (unet s))]) s).
Proof.
  intros Hdue Hw. unfold maybe_checkpoint, torch_save_unet, bind, get.
  apply Z.eqb_eq in Hdue. rewrite Hdue. cbn. rewrite Hw. reflexivity.
Qed.

(** X9.  In an epoch whose number plus one is a multiple of ten, with
    loaders that load and a checkpoint path that can be written, the epoch
    returns and has appended exactly one file: the checkpoint of that
    epoch, holding the U-net's weights as they are when the epoch ends (the
    validation pass that follows the write changes none of them). *)
Theorem checkpoint_holds_epoch_weights (e : Z) s :
  RuntimeSpec rt ->
  loader_ok (read_image disk) (train_loader s) ->
  loader_ok (read_image disk) (val_loader s) ->
  (e + 1) mod 10 = 0 ->
  can_write disk (checkpoint_path e) = true ->
  returns (epoch_body rt disk e)
    (fun _ s' =>
       saved s' = saved s ++ [(checkpoint_path e, state_dict (heap s') (unet s'))]) s.
Proof.
  intros Hrt Htrain Hval Hdue Hw. unfold epoch_body.
  apply returns_bind.
  eapply returns_mono;
    [|eapply returns_respects;
      [apply train_pass_frame|apply train_pass_returns; eassumption]].
  intros ? s1 [_ Hsame1]. cbv beta.
  unfold same, train_pass_view in Hsame1.
  injection Hsame1 as _ _ Hvl1 _ Hsv1 _ _ _.
  apply returns_bind.
  exists tt. eexists. split; [apply maybe_checkpoint_saves; assumption|].
  unfold maybe_validate.
  rewrite (proj2 (Z.eqb_eq _ _) (ten_is_two_fives e Hdue)).
  eapply returns_mono;
    [|eapply returns_respects;
      [apply validation_frame
      |apply validation_returns; [exact Hrt|cbn; rewrite Hvl1; exact Hval]]].
  intros ? s3 [_ Hsame3]. cbv beta.
  unfold same, validation_view in Hsame3. cbn in Hsame3.
  injection Hsame3 as Hheap _ _ _ Hpar _ _ _ _ _ Hsv3 _ _ _.
  rewrite Hsv3, Hsv1. do 3 f_equal.
  unfold state_dict. rewrite Hheap, Hpar. reflexivity.
Qed.

(** X8.  Let [n] be the first epoch whose checkpoint cannot be written
    (the earlier ones that are due can), with loaders that load.  Then the
    loop raises the failure of that write, at the end of the training pass
    of epoch [n] and before its validation pass: the files written are the
    checkpoints of the earlier epochs, the validation lines printed are
    those of the earlier epochs, [n + 1] epoch losses are recorded, and one
    validation loss for each earlier validation. *)
Theorem failed_checkpoint_ends_run (n : nat) s :
  RuntimeSpec rt ->
  loader_ok (read_image disk) (train_loader s) ->
  loader_ok (read_image disk) (val_loader s) ->
  (n < n_epochs)%nat ->
  checkpoint_due (Z.of_nat n) = true ->
  can_write disk (checkpoint_path (Z.of_nat n)) = false ->
  (forall e, In e (range n) -> checkpoint_due e = true ->
             can_write disk (checkpoint_path e) = true) ->
  raises (training_loop rt disk) (RuntimeError (checkpoint_path (Z.of_nat n)))
    (fun s' =>
       saved_paths s' =
         saved_paths s ++ map checkpoint_path (List.filter checkpoint_due (range n)) /\
       validated_epochs s' =
         validated_epochs s ++ List.filter validation_due (range n) /\
       length (epoch_losses s') = (length (epoch_losses s) + n + 1)%nat /\
       length (val_losses s') =
         (length (val_losses s) + length (List.filter validation_due (range n)))%nat) s.
Proof.
  intros Hrt Htrain Hval Hn Hdue Hlocked Hearlier. unfold training_loop.
  apply raises_bind_first.
  rewrite (range_split n n_epochs Hn).
  apply raises_for_epochs_app.
  eapply returns_mono;
    [|apply for_epochs_returns; [exact Hrt|exact Htrain|intros _; exact Hval|exact Hearlier]].
  intros ? s1 (Htl & Hvl & Hsp & Hve & Hel & Hvls & _). cbv beta.
  cbn [for_epochs]. apply raises_bind_first.
  unfold epoch_body. apply raises_bind_later.
  eapply returns_mono;
    [|eapply returns_respects;
      [apply train_pass_frame
      |apply train_pass_returns; [exact Hrt|rewrite Htl; exact Htrain]]].
  intros ? s2 [[x Hx] Hsame]. cbv beta.
  unfold same, train_pass_view in Hsame.
  injection Hsame as _ _ _ _ Hsv2 Hve2 _ Hvls2.
  apply raises_bind_first.
  exists s2. split.
  - unfold maybe_checkpoint, torch_save_unet, bind, get.
    unfold checkpoint_due in Hdue. rewrite Hdue. cbn. rewrite Hlocked. reflexivity.
  - assert (Hlen : length (range n) = n)
      by (unfold range; rewrite length_map, length_seq; reflexivity).
    unfold saved_paths in *. rewrite Hsv2, Hve2, Hvls2, Hx, length_app. cbn [length].
    repeat split; [assumption|assumption|lia|assumption].
Qed.

End Checkpoints.

Lemma checkpoint_holds_epoch_weights_witness :
  returns (epoch_body Toy.rt (Toy.disk 40) 9)
    (fun _ s' => saved_paths s' = [checkpoint_path 9]) Toy.start.
Proof.
  eapply returns_mono;
    [|apply (checkpoint_holds_epoch_weights Toy.rt (Toy.disk 40) 9 Toy.start
               toy_runtime_spec toy_train_loader_ok toy_val_loader_ok);
      reflexivity].
  intros ? s' Hs'. unfold saved_paths. rewrite Hs'. reflexivity.
Defined.

Lemma failed_checkpoint_ends_run_witness :
  raises (training_loop Toy.rt (Toy.locked_disk 40))
    (RuntimeError "./trained_unet/ + /unet_epoch_10.pt")
    (fun s' => saved_paths s' = [] /\ validated_epochs s' = [4] /\
               length (epoch_losses s') = 10%nat /\
               length (val_losses s') = 1%nat) Toy.start.
Proof.
  eapply raises_mono;
    [|apply (failed_checkpoint_ends_run Toy.rt (Toy.locked_disk 40) 9 Toy.start
               toy_runtime_spec toy_train_loader_ok toy_val_loader_ok)].
  - intros s' H. exact H.
  - unfold n_epochs. lia.
  - reflexivity.
  - reflexivity.
  - intros e He Hd. vm_compute in He.
    repeat (destruct He as [<-|He]; [discriminate Hd|]). destruct He.
Defined.

(** ** The whole script (lines 36-214) *)

Section WholeScript.
Context {Tensor Rng : Type} (rt : Runtime Tensor Rng) (disk : Disk Tensor).
Implicit Types (s : state Tensor Rng).











(** X14.  With fewer than two names in the image directory the training
    list is empty, and the script stops on an exception during set-up: no
    epoch is started. *)
Theorem script_needs_two_images (listing : list string) (r0 : Rng) :
  RuntimeSpec rt ->
  listdir disk imgs_dir = Some listing ->
  (length listing <= 1)%nat ->
  exists e, script rt disk r0 = (Raise e, None).
Proof.
  intros Hrt Hlist Hn. unfold script, setup. rewrite Hlist.
  assert (Hsplit : exists sp, split_dataset (geomodels_dataset listing) = Some sp /\
                              train_datalist sp = []).
  { destruct listing as [|x [|y listing]]; [| |cbn in Hn; lia];
      eexists; (split; [vm_compute; reflexivity|reflexivity]). }
  destruct Hsplit as (sp & -> & Hempty).
  destruct (setup_raises_without_training_data rt disk sp r0 Hrt Hempty) as [e ->].
  eauto.
Qed.


End WholeScript.


Lemma script_needs_two_images_witness :
  exists e, script Toy.rt (Toy.disk 1) 0 = (Raise e, None).
Proof.
  apply (script_needs_two_images Toy.rt (Toy.disk 1) (numbered_files 1) 0).
  - exact toy_runtime_spec.
  - reflexivity.
  - cbn. lia.
Defined.

